(** * QualAI community methodologies: the deterministic analysis core

    A shallow embedding of the rule-based parts of the QualAI tools
    (theory engine, hierarchy depth, quality validators, saturation
    heuristic) together with the properties the specification states
    about them. *)

From Stdlib Require Import Ascii QArith Qcanon Qround Sorted.
From stdpp Require Import base numbers option list strings pretty gmap.

(** ** JavaScript values used by the sources *)

Module JS.

(** *** Strings.  A string is a sequence of 8-bit characters.  The
    characters below 128 are the ASCII characters, and on strings made
    of them the functions below are those of JavaScript.  Any other
    character is left as it is by [toLowerCase], which folds the letters
    A to Z only, and is no word character for [\w]. *)

Fixpoint is_ascii (s : string) : bool :=
  match s with
  | EmptyString => true
  | String c s' => (N_of_ascii c <? 128)%N && is_ascii s'
  end.

Definition lower_char (c : ascii) : ascii :=
  let n := N_of_ascii c in
  if ((65 <=? n) && (n <=? 90))%N then ascii_of_N (n + 32) else c.

Fixpoint toLowerCase (s : string) : string :=
  match s with
  | EmptyString => EmptyString
  | String c s' => String (lower_char c) (toLowerCase s')
  end.

(** [starts_with p s]: [p] is a prefix of [s]. *)
Fixpoint starts_with (p s : string) : bool :=
  match p, s with
  | EmptyString, _ => true
  | String a p', String b s' => bool_decide (a = b) && starts_with p' s'
  | String _ _, EmptyString => false
  end.

(** [String.prototype.includes]. *)
Fixpoint includes (s sub : string) : bool :=
  starts_with sub s ||
  match s with
  | EmptyString => false
  | String _ s' => includes s' sub
  end.

(** The character class [\w] = [A-Za-z0-9_]. *)
Definition is_word_char (c : ascii) : bool :=
  let n := N_of_ascii c in
  (((65 <=? n) && (n <=? 90)) || ((97 <=? n) && (n <=? 122)) ||
   ((48 <=? n) && (n <=? 57)) || (n =? 95))%N.

(** [/\w+ing/.test(s)]: somewhere in [s] a word character is
    immediately followed by the letters "ing". *)
Fixpoint test_w_ing (s : string) : bool :=
  match s with
  | EmptyString => false
  | String c s' => (is_word_char c && starts_with "ing" s') || test_w_ing s'
  end.

(** [Array.prototype.join]. *)
Fixpoint join (sep : string) (l : list string) : string :=
  match l with
  | [] => EmptyString
  | [x] => x
  | x :: l' => x +:+ sep +:+ join sep l'
  end.

(** Template interpolation of an array length. *)
Definition string_of_nat (n : nat) : string := pretty n.

(** *** Numbers.  A number is an exact rational, an infinity or NaN;
    rounding to binary64 and the sign of zero are not represented. *)

Inductive number : Type :=
| Fin (q : Qc)
| PosInf
| NegInf
| NaN.

Definition of_Z (z : Z) : number := Fin (Q2Qc (inject_Z z)).
Definition of_nat (n : nat) : number := of_Z (Z.of_nat n).
Definition decimal (num : Z) (den : positive) : number := Fin (Q2Qc (num # den)).

Definition Qc_ltb (a b : Qc) : bool := bool_decide (a < b)%Qc.
Definition Qc_leb (a b : Qc) : bool := bool_decide (a <= b)%Qc.
Definition Qc_eqb (a b : Qc) : bool := bool_decide (a = b).

Definition add (a b : number) : number :=
  match a, b with
  | NaN, _ | _, NaN => NaN
  | PosInf, NegInf | NegInf, PosInf => NaN
  | PosInf, _ | _, PosInf => PosInf
  | NegInf, _ | _, NegInf => NegInf
  | Fin x, Fin y => Fin (x + y)
  end.

Definition neg (a : number) : number :=
  match a with
  | NaN => NaN
  | PosInf => NegInf
  | NegInf => PosInf
  | Fin x => Fin (- x)
  end.

Definition sub (a b : number) : number := add a (neg b).

Definition mul (a b : number) : number :=
  match a, b with
  | NaN, _ | _, NaN => NaN
  | Fin x, Fin y => Fin (x * y)
  | Fin x, PosInf | PosInf, Fin x =>
      if Qc_eqb x 0 then NaN else if Qc_ltb 0 x then PosInf else NegInf
  | Fin x, NegInf | NegInf, Fin x =>
      if Qc_eqb x 0 then NaN else if Qc_ltb 0 x then NegInf else PosInf
  | PosInf, PosInf | NegInf, NegInf => PosInf
  | PosInf, NegInf | NegInf, PosInf => NaN
  end.

Definition div (a b : number) : number :=
  match a, b with
  | NaN, _ | _, NaN => NaN
  | Fin x, Fin y =>
      if Qc_eqb y 0
      then (if Qc_eqb x 0 then NaN else if Qc_ltb 0 x then PosInf else NegInf)
      else Fin (x / y)
  | Fin _, (PosInf | NegInf) => Fin 0
  | (PosInf | NegInf), (PosInf | NegInf) => NaN
  | PosInf, Fin y => if Qc_ltb y 0 then NegInf else PosInf
  | NegInf, Fin y => if Qc_ltb y 0 then PosInf else NegInf
  end.

(** Comparisons; every comparison with NaN is false. *)
Definition ltb (a b : number) : bool :=
  match a, b with
  | NaN, _ | _, NaN => false
  | Fin x, Fin y => Qc_ltb x y
  | NegInf, (Fin _ | PosInf) => true
  | Fin _, PosInf => true
  | _, _ => false
  end.

Definition leb (a b : number) : bool :=
  match a, b with
  | NaN, _ | _, NaN => false
  | Fin x, Fin y => Qc_leb x y
  | NegInf, _ => true
  | _, PosInf => true
  | _, _ => false
  end.

Definition gtb (a b : number) : bool := ltb b a.
Definition geb (a b : number) : bool := leb b a.

Definition Math_min (a b : number) : number :=
  match a, b with
  | NaN, _ | _, NaN => NaN
  | _, _ => if leb a b then a else b
  end.

Definition Math_max (a b : number) : number :=
  match a, b with
  | NaN, _ | _, NaN => NaN
  | _, _ => if leb a b then b else a
  end.

Definition Math_floor (a : number) : number :=
  match a with
  | Fin x => of_Z (Qfloor x)
  | _ => a
  end.

Definition is_NaN (a : number) : bool :=
  match a with NaN => true | _ => false end.

(** [Math.round]: the nearest integer, halves towards positive infinity. *)
Definition Math_round (a : number) : number :=
  match a with
  | Fin x => of_Z (Qfloor (x + Q2Qc (1 # 2)))
  | _ => a
  end.

(** Template interpolation of a number that holds an integer (as the
    results of [Math.round] do), or of NaN or an infinity. *)
Definition string_of_integer (a : number) : string :=
  match a with
  | Fin x => pretty (Qfloor x)
  | PosInf => "Infinity"
  | NegInf => "-Infinity"
  | NaN => "NaN"
  end.

End JS.

(** ** [qualai-mcp-implementation/src/analysis/theory-engine.ts] *)

Module TheoryEngine.
Import JS.

(** [Code] (coding-engine) and [Theme] (theme-engine): the fields this
    file reads or builds.  [prevalence] is a finite number, the only
    values on which the comparator [b.prevalence - a.prevalence] is a
    consistent ordering. *)
Record Code : Type := {
  code_name : string;
  frequency : number;
}.

Record Theme : Type := {
  name : string;
  description : string;
  supportingCodes : list string;
  prevalence : Qc;
  examples : list string;
}.

Inductive Paradigm : Type := constructivist | objectivist.

Record ParadigmModel : Type := {
  phenomenon : string;
  causalConditions : list string;
  context : list string;
  strategies : list string;
  consequences : list string;
  interveningConditions : list string;
}.

Inductive RelationshipType : Type :=
| causes | influences | triggers | precedes | enables | constrains.

Inductive Strength : Type := strong | moderate | weak.

Record CategoryRelationship : Type := {
  from : string;
  to : string;
  type : RelationshipType;
  explanation : string;
  strength : Strength;
}.

Record Metadata : Type := {
  researchQuestion : string;
  createdAt : Z;
}.

Record GroundedTheory : Type := {
  title : string;
  coreCategory : string;
  paradigm : Paradigm;
  paradigmModel : ParadigmModel;
  storyline : string;
  theoreticalPropositions : list string;
  categoryRelationships : list CategoryRelationship;
  metadata : Metadata;
}.

#[global] Instance Strength_eq_dec : EqDecision Strength.
Proof. solve_decision. Defined.

#[global] Instance RelationshipType_eq_dec : EqDecision RelationshipType.
Proof. solve_decision. Defined.

(** [Array.prototype.push] on a list held in a record field. *)
Definition push {A : Type} (l : list A) (x : A) : list A := l ++ [x].

(** [Array.prototype.sort(cmp)]: a stable sort; [x] goes before the
    first element it does not compare greater than. *)
Section Sort.
Context {A : Type} (cmp : A -> A -> Qc).

Fixpoint sort_insert (x : A) (l : list A) : list A :=
  match l with
  | [] => [x]
  | y :: l' => if Qc_leb (cmp x y) 0 then x :: y :: l' else y :: sort_insert x l'
  end.

Definition sort (l : list A) : list A := foldr sort_insert [] l.
End Sort.

Definition unknown_process : Theme :=
  {| name := "Unknown Process";
     description := "No themes identified";
     supportingCodes := [];
     prevalence := 0;
     examples := [] |}.

Definition identifyCoreCategory (themes : list Theme) : Theme :=
  if (length themes =? 0)%nat then unknown_process
  else
    let sorted := sort (fun a b => (prevalence b - prevalence a)%Qc) themes in
    default unknown_process (head sorted).

Definition containsGerunds (codes : list string) : bool :=
  existsb test_w_ing codes.

Inductive Bucket : Type :=
| CausalConditions | Context_ | Strategies | Consequences | InterveningConditions.

#[global] Instance Bucket_eq_dec : EqDecision Bucket.
Proof. solve_decision. Defined.

(** The [if / else if] chain in the loop body of [buildParadigmModel]:
    the list a theme is pushed to. *)
Definition bucket_of (theme : Theme) : Bucket :=
  let themeName := toLowerCase (name theme) in
  if includes themeName "trigger" ||
     includes themeName "cause" ||
     includes themeName "lead to" ||
     includes themeName "result from"
  then CausalConditions
  else if includes themeName "context" ||
          includes themeName "environment" ||
          includes themeName "setting" ||
          includes themeName "background"
  then Context_
  else if includes themeName "strateg" ||
          includes themeName "action" ||
          includes themeName "approach" ||
          includes themeName "managing" ||
          includes themeName "coping" ||
          containsGerunds (supportingCodes theme)
  then Strategies
  else if includes themeName "outcome" ||
          includes themeName "result" ||
          includes themeName "consequence" ||
          includes themeName "impact" ||
          includes themeName "effect"
  then Consequences
  else if includes themeName "factor" ||
          includes themeName "influence" ||
          includes themeName "constraint" ||
          includes themeName "resource"
  then InterveningConditions
  else if gtb (Fin (prevalence theme)) (decimal 3 10)
  then Strategies
  else Context_.

Definition push_to (model : ParadigmModel) (b : Bucket) (x : string) : ParadigmModel :=
  match b with
  | CausalConditions =>
      {| phenomenon := phenomenon model;
         causalConditions := push (causalConditions model) x;
         context := context model;
         strategies := strategies model;
         consequences := consequences model;
         interveningConditions := interveningConditions model |}
  | Context_ =>
      {| phenomenon := phenomenon model;
         causalConditions := causalConditions model;
         context := push (context model) x;
         strategies := strategies model;
         consequences := consequences model;
         interveningConditions := interveningConditions model |}
  | Strategies =>
      {| phenomenon := phenomenon model;
         causalConditions := causalConditions model;
         context := context model;
         strategies := push (strategies model) x;
         consequences := consequences model;
         interveningConditions := interveningConditions model |}
  | Consequences =>
      {| phenomenon := phenomenon model;
         causalConditions := causalConditions model;
         context := context model;
         strategies := strategies model;
         consequences := push (consequences model) x;
         interveningConditions := interveningConditions model |}
  | InterveningConditions =>
      {| phenomenon := phenomenon model;
         causalConditions := causalConditions model;
         context := context model;
         strategies := strategies model;
         consequences := consequences model;
         interveningConditions := push (interveningConditions model) x |}
  end.

Definition set_phenomenon (model : ParadigmModel) (x : string) : ParadigmModel :=
  {| phenomenon := x;
     causalConditions := causalConditions model;
     context := context model;
     strategies := strategies model;
     consequences := consequences model;
     interveningConditions := interveningConditions model |}.

Definition empty_model : ParadigmModel :=
  {| phenomenon := EmptyString;
     causalConditions := [];
     context := [];
     strategies := [];
     consequences := [];
     interveningConditions := [] |}.

(** One iteration of [for (const theme of themes)]. *)
Definition categorize (model : ParadigmModel) (theme : Theme) : ParadigmModel :=
  push_to model (bucket_of theme) (name theme).

Definition buildParadigmModel (themes : list Theme) (codes : list Code) : ParadigmModel :=
  let model := fold_left categorize themes empty_model in
  match themes with
  | theme0 :: _ => set_phenomenon model (name theme0)
  | [] => model
  end.

(** [Array.prototype.includes] on an array of strings. *)
Definition array_includes (l : list string) (c : string) : bool :=
  bool_decide (c ∈ l).

Definition dquote : string := String (ascii_of_N 34) EmptyString.
Definition newline : string := String (ascii_of_N 10) EmptyString.

(** The object [inferRelationship] returns: [{ type, explanation, strength }]. *)
Record Inferred : Type := {
  inf_type : RelationshipType;
  inf_explanation : string;
  inf_strength : Strength;
}.

Definition sharedCodes (theme1 theme2 : Theme) : list string :=
  List.filter (fun c => array_includes (supportingCodes theme2) c) (supportingCodes theme1).

Definition inferRelationship (theme1 theme2 : Theme) : option Inferred :=
  let name1 := toLowerCase (name theme1) in
  let name2 := toLowerCase (name theme2) in
  let shared := sharedCodes theme1 theme2 in
  if (length shared =? 0)%nat then None
  else
    let strength :=
      if (2 <? length shared)%nat then strong
      else if (1 <? length shared)%nat then moderate
      else weak in
    if includes name1 "challeng" && includes name2 "strateg" then
      Some {| inf_type := triggers;
              inf_explanation := "Challenges trigger the use of strategies";
              inf_strength := strength |}
    else if includes name1 "strateg" && includes name2 "outcome" then
      Some {| inf_type := causes;
              inf_explanation := "Strategies lead to outcomes";
              inf_strength := strength |}
    else if includes name1 "context" || includes name1 "factor" then
      Some {| inf_type := influences;
              inf_explanation := "Contextual factors influence other processes";
              inf_strength := strength |}
    else
      Some {| inf_type := influences;
              inf_explanation :=
                dquote +:+ name theme1 +:+ dquote +:+ " influences " +:+
                dquote +:+ name theme2 +:+ dquote +:+
                " through shared underlying processes";
              inf_strength := strength |}.

Definition relationship_of (theme1 theme2 : Theme) (r : Inferred) : CategoryRelationship :=
  {| from := name theme1;
     to := name theme2;
     type := inf_type r;
     explanation := inf_explanation r;
     strength := inf_strength r |}.

(** The two nested index loops; relationships are pushed in the order
    the pairs [(i, j)] are visited. *)
Definition mapCategoryRelationships (themes : list Theme) : list CategoryRelationship :=
  let indexed := imap (fun i t => (i, t)) themes in
  indexed ≫= (fun '(i, theme1) =>
    omap (fun '(j, theme2) =>
            if bool_decide (i = j) then None
            else relationship_of theme1 theme2 <$> inferRelationship theme1 theme2)
         indexed).

Definition formatList (items : list string) : string :=
  match items with
  | [] => EmptyString
  | [a] => toLowerCase a
  | [a; b] => toLowerCase a +:+ " and " +:+ toLowerCase b
  | _ =>
      let lastItem := default EmptyString (last items) in
      let otherItems := take (length items - 1) items in
      join ", " (toLowerCase <$> otherItems) +:+ ", and " +:+ toLowerCase lastItem
  end.

Definition nonempty {A : Type} (l : list A) : bool := (0 <? length l)%nat.

Definition generateStoryline (coreCategory : Theme) (model : ParadigmModel)
    (themes : list Theme) : string :=
  let storyline :=
    "This grounded theory explains the process of " +:+
    toLowerCase (name coreCategory) +:+ ". " in
  let storyline :=
    if nonempty (causalConditions model)
    then storyline +:+ "This process is initiated by " +:+
         formatList (causalConditions model) +:+ ". "
    else storyline in
  let storyline :=
    if nonempty (context model)
    then storyline +:+ "It occurs within the context of " +:+
         formatList (context model) +:+ ". "
    else storyline in
  let storyline :=
    if nonempty (strategies model)
    then storyline +:+ "Participants engage in " +:+
         formatList (strategies model) +:+ " as responses to the phenomenon. "
    else storyline in
  let storyline :=
    if nonempty (interveningConditions model)
    then storyline +:+ "These responses are shaped by " +:+
         formatList (interveningConditions model) +:+ ". "
    else storyline in
  let storyline :=
    if nonempty (consequences model)
    then storyline +:+ "This ultimately results in " +:+
         formatList (consequences model) +:+ ". "
    else storyline in
  let storyline :=
    storyline +:+ newline +:+ newline +:+ "The data reveals " +:+
    string_of_nat (length themes) +:+
    " interconnected themes that together explain how participants navigate " +:+
    toLowerCase (name coreCategory) +:+ ". " in
  storyline +:+
  "This theory demonstrates that the process is not linear but involves continuous interaction between individual actions, contextual factors, and evolving outcomes.".

Definition proposition_of (rel : CategoryRelationship) : string :=
  match type rel with
  | causes => from rel +:+ " directly causes " +:+ to rel
  | triggers => from rel +:+ " triggers the initiation of " +:+ to rel
  | influences => from rel +:+ " significantly influences " +:+ to rel
  | enables => from rel +:+ " enables or facilitates " +:+ to rel
  | constrains => from rel +:+ " constrains or limits " +:+ to rel
  | precedes => from rel +:+ " temporally precedes " +:+ to rel
  end.

(** Truthiness of a string: only the empty string is falsy. *)
Definition string_truthy (s : string) : bool :=
  match s with EmptyString => false | _ => true end.

Definition generatePropositions (themes : list Theme)
    (relationships : list CategoryRelationship) : list string :=
  let strongRelationships :=
    List.filter (fun r => bool_decide (strength r = strong)) relationships in
  let propositions :=
    fold_left (fun props rel =>
                 let proposition := proposition_of rel in
                 if string_truthy proposition then push props proposition else props)
              (take 5 strongRelationships) [] in
  let prevalentThemes :=
    List.filter (fun t => gtb (Fin (prevalence t)) (decimal 5 10)) themes in
  let propositions :=
    fold_left (fun props theme =>
                 push props (name theme +:+
                   " is a central process that appears across most participant experiences"))
              (take 3 prevalentThemes) propositions in
  if (length propositions =? 0)%nat then
    propositions ++
    [ "The identified themes represent interconnected processes in participants' experiences";
      "Context and individual factors mediate how these processes manifest";
      "The overall process is dynamic and evolves over time" ]
  else propositions.

(** [params] of [buildGroundedTheory]; [now] stands for the clock read
    by [new Date()]. *)
Definition buildGroundedTheory (codes : list Code) (themes : list Theme)
    (researchQuestion : string) (paradigm_opt : option Paradigm) (now : Z)
    : GroundedTheory :=
  let paradigm := default constructivist paradigm_opt in
  let coreCategory := identifyCoreCategory themes in
  let paradigmModel := buildParadigmModel themes codes in
  let relationships := mapCategoryRelationships themes in
  let storyline := generateStoryline coreCategory paradigmModel themes in
  let propositions := generatePropositions themes relationships in
  let title := "Theory of " +:+ name coreCategory in
  {| title := title;
     coreCategory := name coreCategory;
     paradigm := paradigm;
     paradigmModel := paradigmModel;
     storyline := storyline;
     theoreticalPropositions := propositions;
     categoryRelationships := relationships;
     metadata := {| researchQuestion := researchQuestion; createdAt := now |} |}.

End TheoryEngine.

(** ** [mcp-implementation/src/types]: codebook, themes, theory *)

Module Types.
Import JS.

Record Code : Type := {
  code_id : string;
  label : string;
  code_definition : string;
  whenToUse : string;
  whenNotToUse : string;
  code_examples : list string;
  frequency : number;
  childCodes : option (list string);
  parentCode : option string;
}.

(** [relationships] is a plain JS object: the map holds its own
    properties, a parent id with the ordered list of its children. *)
Record CodeHierarchy : Type := {
  rootCodes : list string;
  relationships : gmap string (list string);
}.

(** The children listed for an identifier: its entry in [relationships],
    none when it has no entry. *)
Definition listed_children (rel : gmap string (list string)) (codeId : string) : list string :=
  default [] (rel !! codeId).

Record CodebookMetrics : Type := {
  totalCodes : number;
  hierarchyDepth : number;
  averageCodeFrequency : number;
  redundancyScore : number;
}.

Record Codebook : Type := {
  version : string;
  projectName : string;
  methodology : option string;
  codes : list Code;
  codeHierarchy : CodeHierarchy;
  refinementNotes : string;
  qualityMetrics : CodebookMetrics;
}.

Record Quote : Type := {
  quote_id : string;
  text : string;
  source : string;
  participant : option string;
  quote_context : string;
  codeLabels : list string;
}.

Record Prevalence : Type := {
  participants : number;
  totalParticipants : number;
  dataPoints : number;
}.

Record Theme : Type := {
  id : string;
  name : string;
  centralConcept : string;
  definition : string;
  relatedCodes : list string;
  supportingQuotes : list Quote;
  prevalence : Prevalence;
  significance : string;
}.

Record ParadigmModel : Type := {
  phenomenon : string;
  causalConditions : list string;
  context : list string;
  strategies : list string;
  consequences : list string;
  interveningConditions : list string;
}.

Inductive RelationshipType : Type :=
| causes | influences | triggers | precedes | enables | constrains.

Inductive Strength : Type := strong | moderate | weak.

#[global] Instance Strength_eq_dec : EqDecision Strength.
Proof. solve_decision. Defined.

Record CategoryRelationship : Type := {
  from : string;
  to : string;
  type : RelationshipType;
  explanation : string;
  evidence : list string;
  strength : Strength;
}.

Record TheoreticalIntegration : Type := {
  linkedTheories : list string;
  contribution : string;
  novelty : string;
  practicalImplications : list string;
  futureResearch : list string;
}.

Record SaturationEvidence : Type := {
  categoriesSaturated : bool;
  negativeCasesExamined : number;
  dataSupport : string;
  saturatedCategories : list string;
  unsaturatedCategories : list string;
}.

Inductive Paradigm : Type := constructivist | objectivist | critical.

Record GroundedTheory : Type := {
  title : string;
  coreCategory : string;
  paradigm : Paradigm;
  paradigmModel : ParadigmModel;
  storyline : string;
  theoreticalPropositions : list string;
  categoryRelationships : list CategoryRelationship;
  theoreticalIntegration : TheoreticalIntegration;
  saturationEvidence : SaturationEvidence;
}.

End Types.

(** ** [refineCodebook]: the hierarchy depth calculator *)

Module RefineCodebook.
Import Types.

(** How a call can end.  The recursion of the source is not bounded by
    anything in the data, so the embedding carries a budget of nested
    calls: [Exhausted] means that the budget ran out before the call
    ended.  [TypeError] is the exception of calling [map] on a value that
    has no such method. *)
Inductive Completion (A : Type) : Type :=
| Normal (a : A)
| TypeError
| Exhausted.

Arguments Normal {A} a.
Arguments TypeError {A}.
Arguments Exhausted {A}.

#[global] Instance Completion_ret : MRet Completion := fun A a => Normal a.

#[global] Instance Completion_bind : MBind Completion := fun A B f c =>
  match c with
  | Normal a => f a
  | TypeError => TypeError
  | Exhausted => Exhausted
  end.

(** [Array.prototype.map] with a callback that may not return: the
    elements are visited in order, and the first call that does not return
    ends the whole map. *)
Fixpoint array_map {A B : Type} (f : A -> Completion B) (l : list A) : Completion (list B) :=
  match l with
  | [] => Normal []
  | x :: l' => y ← f x; ys ← array_map f l'; Normal (y :: ys)
  end.

(** What the property read [relationships[codeId]] can evaluate to. *)
Inductive Value : Type :=
| VArray (elements : list string)
| VFunction (parameters : nat)
| VObject
| VUndefined.

(** The properties of [Object.prototype]: its methods, each with the
    [length] of the function, and the accessor [__proto__], which on a
    plain object evaluates to [Object.prototype] itself. *)
Definition Object_prototype : list (string * Value) :=
  [ ("constructor", VFunction 1);
    ("__defineGetter__", VFunction 2);
    ("__defineSetter__", VFunction 2);
    ("hasOwnProperty", VFunction 1);
    ("__lookupGetter__", VFunction 1);
    ("__lookupSetter__", VFunction 1);
    ("isPrototypeOf", VFunction 1);
    ("propertyIsEnumerable", VFunction 1);
    ("toString", VFunction 0);
    ("valueOf", VFunction 0);
    ("toLocaleString", VFunction 0);
    ("__proto__", VObject) ].

Fixpoint inherited (properties : list (string * Value)) (key : string) : Value :=
  match properties with
  | [] => VUndefined
  | (k, v) :: rest => if bool_decide (k = key) then v else inherited rest key
  end.

(** [relationships[codeId]]: the own property if there is one, otherwise
    what the prototype of a plain object provides. *)
Definition get (rel : gmap string (list string)) (codeId : string) : Value :=
  match rel !! codeId with
  | Some children => VArray children
  | None => inherited Object_prototype codeId
  end.

(** [v || []]: of the values above only [undefined] is falsy. *)
Definition or_empty_array (v : Value) : Value :=
  match v with
  | VUndefined => VArray []
  | _ => v
  end.

(** [v.length === 0]; [Object.prototype] has no [length]. *)
Definition length_is_zero (v : Value) : bool :=
  match v with
  | VArray elements => (length elements =? 0)%nat
  | VFunction parameters => (parameters =? 0)%nat
  | VObject => false
  | VUndefined => false
  end.

(** The inner function [getDepth].  [Math.max(...childDepths)] is only
    reached with at least one child. *)
Fixpoint getDepth (fuel : nat) (rel : gmap string (list string))
    (codeId : string) (currentDepth : nat) : Completion nat :=
  match fuel with
  | O => Exhausted
  | S fuel' =>
      let children := or_empty_array (get rel codeId) in
      if length_is_zero children then Normal currentDepth
      else
        match children with
        | VArray elements =>
            childDepths ← array_map (fun childId => getDepth fuel' rel childId (currentDepth + 1))
                                    elements;
            Normal (max_list childDepths)
        | _ => TypeError
        end
  end.

(** The loop over [hierarchy.rootCodes], threading [maxDepth]. *)
Definition calculateHierarchyDepth (fuel : nat) (hierarchy : CodeHierarchy) : Completion nat :=
  fold_left
    (fun acc rootCode =>
       maxDepth ← acc;
       depth ← getDepth fuel (relationships hierarchy) rootCode 1;
       Normal (Nat.max maxDepth depth))
    (rootCodes hierarchy) (Normal 0%nat).

End RefineCodebook.

(** ** Quality validation utilities: [validateCodebook], [validateThemes],
       [validateGroundedTheory] *)

Module QualityValidation.
Import JS Types.

Record QualityAssessment : Type := {
  overallQuality : number;
  criteriaScores : list (string * number);
  strengths : list string;
  weaknesses : list string;
  recommendations : list string;
  passesQualityThreshold : bool;
}.

(** The three text lists filled by [push] while an assessment is built. *)
Record Notes : Type := {
  n_strengths : list string;
  n_weaknesses : list string;
  n_recommendations : list string;
}.

Definition no_notes : Notes :=
  {| n_strengths := []; n_weaknesses := []; n_recommendations := [] |}.

Definition strength_push (n : Notes) (s : string) : Notes :=
  {| n_strengths := n_strengths n ++ [s];
     n_weaknesses := n_weaknesses n;
     n_recommendations := n_recommendations n |}.

Definition weakness_push (n : Notes) (s : string) : Notes :=
  {| n_strengths := n_strengths n;
     n_weaknesses := n_weaknesses n ++ [s];
     n_recommendations := n_recommendations n |}.

Definition recommendation_push (n : Notes) (s : string) : Notes :=
  {| n_strengths := n_strengths n;
     n_weaknesses := n_weaknesses n;
     n_recommendations := n_recommendations n ++ [s] |}.

(** [scores.key] on the record of criterion scores. *)
Fixpoint score (scores : list (string * number)) (key : string) : option number :=
  match scores with
  | [] => None
  | (k, v) :: rest => if bool_decide (k = key) then Some v else score rest key
  end.

(** [Object.values(scores).reduce((a, b) => a + b, 0) / Object.keys(scores).length]. *)
Definition mean (scores : list (string * number)) : number :=
  div (fold_left (fun a b => add a b) (snd <$> scores) (of_nat 0))
      (of_nat (length scores)).

Definition length_gt (s : string) (n : nat) : bool := (n <? String.length s)%nat.

Definition validateCodebook (codebook : Codebook) (methodology : option string)
    : QualityAssessment :=
  let codesWithDefinitions :=
    List.filter (fun c => length_gt (code_definition c) 10) (codes codebook) in
  let clarity :=
    div (of_nat (length codesWithDefinitions)) (of_nat (length (codes codebook))) in
  let uniqueLabels : gset string :=
    list_to_set ((fun c => toLowerCase (label c)) <$> codes codebook) in
  let distinctiveness :=
    div (of_nat (size uniqueLabels)) (of_nat (length (codes codebook))) in
  let codeCount := length (codes codebook) in
  let completeness :=
    if (codeCount <? 5)%nat then decimal 3 10
    else if (codeCount <? 10)%nat then decimal 6 10
    else if (codeCount <=? 50)%nat then decimal 10 10
    else if (codeCount <=? 100)%nat then decimal 8 10
    else decimal 5 10 in
  let depth := hierarchyDepth (qualityMetrics codebook) in
  let hierarchy :=
    if match depth with Fin q => Qc_eqb q 0 | _ => false end then decimal 5 10
    else if leb depth (of_nat 3) then decimal 10 10
    else decimal 6 10 in
  let codesWithExamples :=
    List.filter (fun c => (0 <? length (code_examples c))%nat) (codes codebook) in
  let examples :=
    div (of_nat (length codesWithExamples)) (of_nat (length (codes codebook))) in
  let scores :=
    [ ("clarity", clarity); ("distinctiveness", distinctiveness);
      ("completeness", completeness); ("hierarchy", hierarchy);
      ("examples", examples) ] in
  let overall := mean scores in
  let notes := no_notes in
  let notes :=
    if geb clarity (decimal 9 10) then strength_push notes "Codes are clearly defined"
    else if ltb clarity (decimal 7 10) then
      recommendation_push
        (weakness_push notes "Some codes lack clear definitions")
        "Add clear definitions for all codes, including when to use and when not to use"
    else notes in
  let notes :=
    if geb distinctiveness (decimal 95 100) then
      strength_push notes "Codes are distinctive and non-overlapping"
    else if ltb distinctiveness (decimal 9 10) then
      recommendation_push
        (weakness_push notes "Some code labels may be duplicates or very similar")
        "Review codes for duplicates and merge similar codes"
    else notes in
  let notes :=
    if geb completeness (decimal 9 10) then
      strength_push notes "Appropriate number of codes for analysis"
    else if ltb completeness (decimal 7 10) then
      if (codeCount <? 10)%nat then
        recommendation_push notes "Consider if you need more codes to capture data richness"
      else
        recommendation_push notes "Consider consolidating codes - codebook may be too large"
    else notes in
  let notes :=
    if geb examples (decimal 8 10) then
      strength_push notes "Codes well-supported with examples"
    else
      recommendation_push
        (weakness_push notes "Many codes lack supporting examples")
        "Add data examples for each code to ground them in evidence" in
  {| overallQuality := overall;
     criteriaScores := scores;
     strengths := n_strengths notes;
     weaknesses := n_weaknesses notes;
     recommendations := n_recommendations notes;
     passesQualityThreshold := geb overall (decimal 7 10) |}.

(** [[...codes1].filter(c => codes2.has(c)).length] for two [Set]s. *)
Definition overlap (codes1 codes2 : gset string) : nat := size (codes1 ∩ codes2).

(** The inner loop [for (j = i + 1; ...)] of [calculateThemeOverlap]:
    [themes[i]] against every later theme. *)
Fixpoint overlaps_from (themes : list Theme) : list nat :=
  match themes with
  | [] => []
  | t :: rest =>
      ((fun u => overlap (list_to_set (relatedCodes t)) (list_to_set (relatedCodes u)))
         <$> rest) ++ overlaps_from rest
  end.

Definition calculateThemeOverlap (themes : list Theme) : number :=
  if (length themes <? 2)%nat then of_nat 0
  else
    let overlaps := overlaps_from themes in
    let totalOverlap := fold_left Nat.add overlaps 0%nat in
    let comparisons := length overlaps in
    if (0 <? comparisons)%nat then div (of_nat totalOverlap) (of_nat comparisons)
    else of_nat 0.

Definition validateThemes (themes : list Theme) (totalDataPoints : number)
    : QualityAssessment :=
  let n := of_nat (length themes) in
  let themesWithConcepts :=
    List.filter (fun t => length_gt (centralConcept t) 10) themes in
  let coherence := div (of_nat (length themesWithConcepts)) n in
  let avgSharedCodes := calculateThemeOverlap themes in
  let distinctiveness :=
    Math_max (of_nat 0) (sub (of_nat 1) (div avgSharedCodes (of_nat 3))) in
  let avgQuotesPerTheme :=
    div (fold_left (fun sum t => add sum (of_nat (length (supportingQuotes t))))
                   themes (of_nat 0)) n in
  let dataSupport := Math_min (of_nat 1) (div avgQuotesPerTheme (of_nat 5)) in
  let themesWithSignificance :=
    List.filter (fun t => length_gt (significance t) 10) themes in
  let relevance := div (of_nat (length themesWithSignificance)) n in
  let avgPrevalence :=
    div (fold_left
           (fun sum t =>
              if gtb (totalParticipants (prevalence t)) (of_nat 0)
              then add sum (div (participants (prevalence t))
                                (totalParticipants (prevalence t)))
              else sum)
           themes (of_nat 0)) n in
  let totalDataPointsCovered :=
    fold_left (fun sum t => add sum (dataPoints (prevalence t))) themes (of_nat 0) in
  let coverage := Math_min (of_nat 1) (div totalDataPointsCovered totalDataPoints) in
  let scores :=
    [ ("coherence", coherence); ("distinctiveness", distinctiveness);
      ("dataSupport", dataSupport); ("relevance", relevance);
      ("prevalence", avgPrevalence); ("coverage", coverage) ] in
  let overall := mean scores in
  let notes := no_notes in
  let notes :=
    if geb coherence (decimal 9 10) then
      strength_push notes "Themes have clear central organizing concepts"
    else
      recommendation_push
        (weakness_push notes "Some themes lack clear central concepts")
        "Define the central organizing concept for each theme" in
  let notes :=
    if geb distinctiveness (decimal 8 10) then
      strength_push notes "Themes are clearly distinct from each other"
    else
      recommendation_push
        (weakness_push notes "Themes may have too much overlap")
        "Review themes for overlap and ensure each captures a distinct pattern" in
  let notes :=
    if geb dataSupport (decimal 8 10) then
      strength_push notes "Themes well-supported with data extracts"
    else
      recommendation_push
        (weakness_push notes "Themes need more supporting quotes")
        "Add more supporting quotes for each theme (aim for 5+ per theme)" in
  let notes :=
    if geb avgPrevalence (decimal 5 10) then
      strength_push notes "Themes appear across multiple participants"
    else
      recommendation_push
        (weakness_push notes "Some themes may be too narrow, appearing in few participants")
        "Consider if narrow themes should be combined or presented as subthemes" in
  let notes :=
    if (length themes <? 3)%nat then
      recommendation_push
        (weakness_push notes "Very few themes - may be missing patterns")
        "Consider if data has been analyzed in sufficient depth"
    else if (8 <? length themes)%nat then
      recommendation_push
        (weakness_push notes "Many themes - may lack coherence")
        "Consider grouping themes or creating theme hierarchies"
    else
      strength_push notes
        ("Appropriate number of themes (" +:+ string_of_nat (length themes) +:+ ")") in
  {| overallQuality := overall;
     criteriaScores := scores;
     strengths := n_strengths notes;
     weaknesses := n_weaknesses notes;
     recommendations := n_recommendations notes;
     passesQualityThreshold := geb overall (decimal 7 10) |}.

Definition validateGroundedTheory (theory : GroundedTheory) : QualityAssessment :=
  let model := paradigmModel theory in
  let integration := theoreticalIntegration theory in
  let credibility := of_nat 0 in
  let credibility :=
    if (0 <? length (causalConditions model))%nat
    then add credibility (decimal 2 10) else credibility in
  let credibility :=
    if (0 <? length (strategies model))%nat
    then add credibility (decimal 2 10) else credibility in
  let credibility :=
    if (3 <=? length (categoryRelationships theory))%nat
    then add credibility (decimal 3 10) else credibility in
  let credibility :=
    if categoriesSaturated (saturationEvidence theory)
    then add credibility (decimal 3 10) else credibility in
  let originality := of_nat 0 in
  let originality :=
    if length_gt (novelty integration) 20
    then add originality (decimal 5 10) else originality in
  let originality :=
    if (3 <=? length (theoreticalPropositions theory))%nat
    then add originality (decimal 5 10) else originality in
  let resonance := of_nat 0 in
  let resonance :=
    if length_gt (storyline theory) 100
    then add resonance (decimal 3 10) else resonance in
  let resonance :=
    if (0 <? length (context model))%nat
    then add resonance (decimal 2 10) else resonance in
  let resonance :=
    if (0 <? length (interveningConditions model))%nat
    then add resonance (decimal 2 10) else resonance in
  let resonance :=
    if existsb (fun r => bool_decide (strength r = strong)) (categoryRelationships theory)
    then add resonance (decimal 3 10) else resonance in
  let usefulness := of_nat 0 in
  let usefulness :=
    if length_gt (contribution integration) 20
    then add usefulness (decimal 4 10) else usefulness in
  let usefulness :=
    if (0 <? length (practicalImplications integration))%nat
    then add usefulness (decimal 3 10) else usefulness in
  let usefulness :=
    if (0 <? length (futureResearch integration))%nat
    then add usefulness (decimal 3 10) else usefulness in
  let scores :=
    [ ("credibility", credibility); ("originality", originality);
      ("resonance", resonance); ("usefulness", usefulness) ] in
  let overall := mean scores in
  let notes := no_notes in
  let notes :=
    if geb credibility (decimal 8 10) then
      strength_push notes "Strong evidence of systematic analysis"
    else
      recommendation_push
        (weakness_push notes "Theory needs more systematic development")
        "Ensure all paradigm model elements are developed and relationships are specified" in
  let notes :=
    if geb originality (decimal 7 10) then
      strength_push notes "Theory offers fresh insights"
    else
      recommendation_push
        (weakness_push notes "Theory may lack originality")
        "Develop more theoretical propositions and clarify what is novel about this theory" in
  let notes :=
    if geb resonance (decimal 7 10) then
      strength_push notes "Theory captures richness of experience"
    else
      recommendation_push
        (weakness_push notes "Theory may not fully capture participant experiences")
        "Develop more contextual and conditional factors; strengthen the storyline" in
  let notes :=
    if geb usefulness (decimal 7 10) then
      strength_push notes "Theory has clear practical value"
    else
      recommendation_push
        (weakness_push notes "Practical implications need development")
        "Articulate practical implications and future research directions" in
  let notes :=
    if negb (categoriesSaturated (saturationEvidence theory)) then
      recommendation_push
        (weakness_push notes "Theoretical saturation not achieved")
        "Continue analysis or acknowledge saturation limitations"
    else notes in
  {| overallQuality := overall;
     criteriaScores := scores;
     strengths := n_strengths notes;
     weaknesses := n_weaknesses notes;
     recommendations := n_recommendations notes;
     passesQualityThreshold := geb overall (decimal 65 100) |}.

(** *** [checkSaturation] *)

(** Truthiness of a string. *)
Definition truthy_string (s : string) : bool :=
  match s with EmptyString => false | _ => true end.

(** An element of a data batch: the fields [code] and [label] the
    function reads; either may be absent. *)
Record BatchItem : Type := {
  item_code : option string;
  item_label : option string;
}.

(** [item.code || item.label]: an absent or empty [code] is falsy. *)
Definition item_key (item : BatchItem) : option string :=
  match item_code item with
  | Some c => if truthy_string c then Some c else item_label item
  | None => item_label item
  end.

Record SaturationResult : Type := {
  saturated : bool;
  confidence : number;
  evidence : string;
}.

(** [array.slice(-3)]. *)
Definition slice_last3 {A : Type} (l : list A) : list A := drop (length l - 3) l.

Definition checkSaturation {A : Type} (codes : list A) (recentDataBatches : list (list BatchItem))
    : SaturationResult :=
  if (length recentDataBatches <? 3)%nat then
    {| saturated := false;
       confidence := of_nat 0;
       evidence := "Insufficient data batches to assess saturation (need at least 3 batches)" |}
  else
    let codesPerBatch :=
      (fun batch => size (list_to_set (item_key <$> batch) : gset (option string)))
        <$> recentDataBatches in
    let lastThree := slice_last3 codesPerBatch in
    let avgNewCodes :=
      div (fold_left (fun a b => add a (of_nat b)) lastThree (of_nat 0)) (of_nat 3) in
    let totalCodes := of_nat (length codes) in
    let newCodeRate := div avgNewCodes totalCodes in
    let percent := string_of_integer (Math_round (mul newCodeRate (of_nat 100))) in
    if ltb newCodeRate (decimal 1 10) then
      {| saturated := true;
         confidence := decimal 8 10;
         evidence := "Last 3 data batches generated <10% new codes (" +:+ percent +:+ "%)" |}
    else if ltb newCodeRate (decimal 2 10) then
      {| saturated := true;
         confidence := decimal 6 10;
         evidence := "New code generation slowing (" +:+ percent +:+ "% in recent batches)" |}
    else
      {| saturated := false;
         confidence := sub (of_nat 1) newCodeRate;
         evidence := "Still generating new codes at " +:+ percent +:+
                     "% rate - continue data collection" |}.

End QualityValidation.

(** ** [extractThemes]: the saturation heuristic *)

Module ExtractThemes.
Import JS Types.

(** [Array.prototype.every]. *)
Definition every {A : Type} (p : A -> bool) (l : list A) : bool := forallb p l.

(** The [saturation] constant of [extractThemes]; [rawDataLength] is
    [rawData.length], which the same function stores as the
    [totalParticipants] of every theme it builds. *)
Definition saturation (themes : list Theme) (rawDataLength : nat) : bool :=
  (3 <=? length themes)%nat &&
  every (fun t => (3 <=? length (supportingQuotes t))%nat) themes &&
  every (fun t =>
           geb (participants (prevalence t))
               (Math_min (of_nat 3)
                         (Math_floor (mul (of_nat rawDataLength) (decimal 3 10)))))
        themes.

End ExtractThemes.

(** ** [theory-engine.ts]: [generateConceptMap] *)

Module ConceptMap.
Import JS TheoryEngine.

Inductive NodeKind : Type := code_node | theme_node | category_node.

#[global] Instance NodeKind_eq_dec : EqDecision NodeKind.
Proof. solve_decision. Defined.









End ConceptMap.

(** ** [mcp-implementation/src/utils/methodologyLoader.ts] *)

Module MethodologyLoader.
Import JS.

(** The fields of declared type [any] ([validationRules], [metadata],
    [examples]) are not represented; no function below reads them.  A
    missing string field is the empty string, a missing [order] is
    [None]. *)
Record MethodologyStage : Type := {
  name : string;
  description : string;
  order : option Z;
  promptTemplate : string;
  requires : list string;
  inputs : list string;
  outputs : list string;
  optional : option bool;
}.

(** [tools] and [qualityCriteria] are objects used as maps; they are
    kept as their entries in property enumeration order. *)
Record Methodology : Type := {
  id : string;
  methodology_name : string;
  version : string;
  author : string;
  category : string;
  methodology_description : string;
  stages : list MethodologyStage;
  tools : list (string * list string);
  qualityCriteria : list (string * list string);
  validated : bool;
  reviewers : list string;
}.

Definition getStageGuidance (methodology : Methodology) (stageName : string)
    : option MethodologyStage :=
  List.find (fun s => bool_decide (name s = stageName)) (stages methodology).

Definition getQualityCriteria (methodology : Methodology) : list (string * list string) :=
  qualityCriteria methodology.

(** [!s] for a string. *)
Definition missing (s : string) : bool :=
  match s with EmptyString => true | _ => false end.

(** The body of [methodology.stages.forEach((stage, index) => ...)]. *)
Definition stage_errors (index : nat) (stage : MethodologyStage) : list string :=
  (if missing (name stage)
   then ["Stage " +:+ string_of_nat index +:+ ": missing name"] else []) ++
  (if missing (description stage)
   then ["Stage " +:+ string_of_nat index +:+ ": missing description"] else []) ++
  (if bool_decide (order stage = None)
   then ["Stage " +:+ string_of_nat index +:+ ": missing order"] else []) ++
  (if missing (promptTemplate stage)
   then ["Stage " +:+ string_of_nat index +:+ ": missing promptTemplate"] else []).

(** [orders.sort((a, b) => a - b)]: the defined values in ascending
    order, then the undefined ones. *)
Definition sort_orders (orders : list (option Z)) : list (option Z) :=
  (Some <$> TheoryEngine.sort
              (fun a b => (Q2Qc (inject_Z a) - Q2Qc (inject_Z b))%Qc)
              (omap (fun o => o) orders)) ++
  List.filter (fun o => bool_decide (o = None)) orders.

(** [orders.every((o, i) => o === expectedOrders[i] || o === 0)] with
    [expectedOrders[i] = i]. *)
Definition orders_sequential (sorted : list (option Z)) : bool :=
  forallb (fun oi => bool_decide (oi.2 = Some (Z.of_nat oi.1)) ||
                     bool_decide (oi.2 = Some 0%Z))
          (imap (fun i o => (i, o)) sorted).

Record Validation : Type := {
  valid : bool;
  errors : list string;
}.

Definition validateMethodologyStructure (methodology : Methodology) : Validation :=
  let errors :=
    (if missing (id methodology) then ["Missing required field: id"] else []) ++
    (if missing (methodology_name methodology) then ["Missing required field: name"] else []) ++
    (if missing (version methodology) then ["Missing required field: version"] else []) ++
    (if missing (category methodology) then ["Missing required field: category"] else []) ++
    (if (length (stages methodology) =? 0)%nat
     then ["Missing or empty required field: stages"] else []) ++
    mjoin (imap stage_errors (stages methodology)) ++
    (if negb (orders_sequential (sort_orders (order <$> stages methodology)))
     then ["Stage orders should be sequential starting from 1 (or 0 for ongoing stages)"]
     else []) in
  {| valid := (length errors =? 0)%nat; errors := errors |}.

(** [Set.prototype.add] on a set kept in insertion order. *)
Definition set_add (s : list string) (x : string) : list string :=
  if bool_decide (x ∈ s) then s else s ++ [x].

Definition getRecommendedTools (methodology : Methodology) : list string :=
  fold_left (fun allTools toolList => fold_left set_add toolList allTools)
            (snd <$> tools methodology) [].

Definition isToolApplicable (methodology : Methodology) (toolName : string)
    (stage : option string) : bool :=
  let allTools := getRecommendedTools methodology in
  bool_decide (toolName ∈ allTools).

End MethodologyLoader.

(** ** [mcp-implementation/src/tools/buildGroundedTheory.ts]: what the
       tool derives from the themes and the parsed theory *)

Module BuildGroundedTheoryTool.
Import JS Types.

(** The object literal assigned to [saturationEvidence]; [categoryCount]
    is [categories.length]. *)
Definition assessSaturation (themes : list Theme) (categoryCount : nat) : SaturationEvidence :=
  {| categoriesSaturated :=
       (3 <=? length themes)%nat &&
       forallb (fun t => (5 <=? length (supportingQuotes t))%nat) themes;
     negativeCasesExamined := of_nat 0;
     dataSupport :=
       "Theory integrates " +:+ string_of_nat (length themes) +:+ " themes and " +:+
       string_of_nat categoryCount +:+ " categories";
     saturatedCategories :=
       name <$> List.filter (fun t => (5 <=? length (supportingQuotes t))%nat) themes;
     unsaturatedCategories :=
       name <$> List.filter (fun t => (length (supportingQuotes t) <? 5)%nat) themes |}.

(** The pushes to [responseObj.nextSteps]. *)
Definition nextSteps (saturationEvidence : SaturationEvidence)
    (theoreticalIntegration : TheoreticalIntegration)
    (categoryRelationships : list CategoryRelationship) : list string :=
  (if negb (categoriesSaturated saturationEvidence)
   then ["Continue data collection to achieve theoretical saturation"] else []) ++
  (if (0 <? length (unsaturatedCategories saturationEvidence))%nat
   then ["Further develop these categories: " +:+
         join ", " (unsaturatedCategories saturationEvidence)] else []) ++
  (if (length (linkedTheories theoreticalIntegration) =? 0)%nat
   then ["Connect theory to existing theoretical literature"] else []) ++
  (if (length categoryRelationships <? 3)%nat
   then ["Specify more relationships between categories"] else []) ++
  [ "Validate theory with participants (member checking)";
    "Test theory with new data or different contexts";
    "Write up theory for publication" ].

End BuildGroundedTheoryTool.

(** ** The specification's own wording, for comparison with the code *)

Module Spec.
Import JS.

(** *** Paradigm classifier: ordered keyword groups, first match wins *)












(** The list of a model that holds a given bucket. *)
Definition list_of (m : TheoryEngine.ParadigmModel) (b : TheoryEngine.Bucket) : list string :=
  match b with
  | TheoryEngine.CausalConditions => TheoryEngine.causalConditions m
  | TheoryEngine.Context_ => TheoryEngine.context m
  | TheoryEngine.Strategies => TheoryEngine.strategies m
  | TheoryEngine.Consequences => TheoryEngine.consequences m
  | TheoryEngine.InterveningConditions => TheoryEngine.interveningConditions m
  end.

(** The themes of a list that a classifier sends to bucket [b], by name
    and in input order. *)
Definition names_in (classify : TheoryEngine.Theme -> TheoryEngine.Bucket)
    (b : TheoryEngine.Bucket) (themes : list TheoryEngine.Theme) : list string :=
  TheoryEngine.name <$>
    List.filter (fun t => bool_decide (classify t = b)) themes.

(** *** Paradigm model: the six slots *)

Definition five_lists (m : TheoryEngine.ParadigmModel) : list string :=
  TheoryEngine.causalConditions m ++ TheoryEngine.context m ++
  TheoryEngine.strategies m ++ TheoryEngine.consequences m ++
  TheoryEngine.interveningConditions m.

Definition slots (m : TheoryEngine.ParadigmModel) : list (list string) :=
  [ [TheoryEngine.phenomenon m];
    TheoryEngine.causalConditions m; TheoryEngine.context m;
    TheoryEngine.strategies m; TheoryEngine.consequences m;
    TheoryEngine.interveningConditions m ].

(** In how many of the six slots a name appears. *)
Definition slot_count (m : TheoryEngine.ParadigmModel) (x : string) : nat :=
  length (List.filter (fun slot => bool_decide (x ∈ slot)) (slots m)).

(** *** Most prevalent theme, first encountered on ties *)

Fixpoint most_prevalent (first : TheoryEngine.Theme) (rest : list TheoryEngine.Theme)
    : TheoryEngine.Theme :=
  match rest with
  | [] => first
  | t :: rest' =>
      if Qc_ltb (TheoryEngine.prevalence first) (TheoryEngine.prevalence t)
      then most_prevalent t rest'
      else most_prevalent first rest'
  end.

(** *** Relationship strength tiers by shared-code count *)

Definition strength_tier (shared : nat) : option TheoryEngine.Strength :=
  match shared with
  | 0 => None
  | 1 => Some TheoryEngine.weak
  | 2 => Some TheoryEngine.moderate
  | _ => Some TheoryEngine.strong
  end.

(** The identifiers two themes have in common, as a set. *)
Definition shared_identifiers (A B : TheoryEngine.Theme) : gset string :=
  list_to_set (TheoryEngine.supportingCodes A) ∩ list_to_set (TheoryEngine.supportingCodes B).

(** The entries of a list that occur in another list, each counted as
    often as it is written. *)
Fixpoint entries_found_in (k l : list string) : nat :=
  match l with
  | [] => 0
  | c :: l' => (if bool_decide (c ∈ k) then 1 else 0) + entries_found_in k l'
  end.

Definition shared_entries (A B : TheoryEngine.Theme) : nat :=
  entries_found_in (TheoryEngine.supportingCodes B) (TheoryEngine.supportingCodes A).

(** *** Hierarchy depth: the reference definition *)

Section Depth.
Variable rel : gmap string (list string).

End Depth.



(** [child h p c]: [c] is listed as a child of [p]; [reachable h x]:
    the traversal from the roots can enter [x]. *)
Definition child (h : Types.CodeHierarchy) (p c : string) : Prop :=
  c ∈ Types.listed_children (Types.relationships h) p.

Inductive reachable (h : Types.CodeHierarchy) : string -> Prop :=
| reachable_root r : r ∈ Types.rootCodes h -> reachable h r
| reachable_child p c : reachable h p -> child h p c -> reachable h c.

(** The names a plain object inherits from [Object.prototype] with a
    value that is no list of children: a function with parameters, or
    [Object.prototype] itself.  An identifier among them stands for a code
    only if [relationships] has an entry of its own for it. *)
Definition inherited_names : list string :=
  [ "constructor"; "__defineGetter__"; "__defineSetter__"; "hasOwnProperty";
    "__lookupGetter__"; "__lookupSetter__"; "isPrototypeOf";
    "propertyIsEnumerable"; "__proto__" ].

(** Every identifier the traversal can enter is one the map speaks for:
    it has an entry of its own or is none of the inherited names. *)
Definition plain_identifiers (h : Types.CodeHierarchy) : Prop :=
  forall x, reachable h x -> Types.relationships h !! x = None -> x ∉ inherited_names.

(** *** Theory validator: an indicator contributes its weight or nothing *)

Definition indicator (holds : bool) (weight : number) : number :=
  if holds then weight else of_nat 0.

(** *** Saturation threshold [min(3, floor(total × 0.3))] on integers *)

Definition participant_threshold (total : nat) : Z :=
  Z.min 3 (3 * Z.of_nat total / 10).

End Spec.


(** ** Predicates used to state further properties *)

Module Invariants.
Import JS.

(** Reading an identifier from [relationships] gives something the
    calculator can go through: an array (its own entry, or the default for
    nothing at all) or a value of length 0, on which [map] is never
    called. *)
Definition traversable (rel : gmap string (list string)) (x : string) : bool :=
  match RefineCodebook.or_empty_array (RefineCodebook.get rel x) with
  | RefineCodebook.VArray _ => true
  | v => RefineCodebook.length_is_zero v
  end.

(** A finite number between 0 and 1. *)
Definition unit_interval (a : number) : bool :=
  match a with
  | Fin q => Qc_leb 0 q && Qc_leb q 1
  | _ => false
  end.

Section Storyline.
Import TheoryEngine.

(** The sentences a storyline can hold between its opening and its
    closing, in their order: the list each one reports, the words before
    the formatted list and the words after it. *)
Definition storyline_parts (model : ParadigmModel) : list (list string * string * string) :=
  [ (causalConditions model, "This process is initiated by ", ". ");
    (context model, "It occurs within the context of ", ". ");
    (strategies model, "Participants engage in ", " as responses to the phenomenon. ");
    (interveningConditions model, "These responses are shaped by ", ". ");
    (consequences model, "This ultimately results in ", ". ") ].

(** The sentence of one part; nothing for an empty list. *)
Definition sentence (part : list string * string * string) : string :=
  match part with
  | ([], _, _) => EmptyString
  | (items, before, after) => before +:+ formatList items +:+ after
  end.

Fixpoint sentences (parts : list (list string * string * string)) : string :=
  match parts with
  | [] => EmptyString
  | part :: rest => sentence part +:+ sentences rest
  end.

End Storyline.

Section Graph.
Import TheoryEngine ConceptMap.


End Graph.

End Invariants.

(** ** Concrete inputs used by the examples below *)

Module Examples.
Import JS.

Definition minor_theme : TheoryEngine.Theme :=
  {| TheoryEngine.name := "Minor theme";
     TheoryEngine.description := "Seen in one interview";
     TheoryEngine.supportingCodes := ["c1"];
     TheoryEngine.prevalence := Q2Qc (1 # 10);
     TheoryEngine.examples := [] |}.

Definition major_theme : TheoryEngine.Theme :=
  {| TheoryEngine.name := "Major theme";
     TheoryEngine.description := "Seen in nearly every interview";
     TheoryEngine.supportingCodes := ["c1"; "c2"];
     TheoryEngine.prevalence := Q2Qc (9 # 10);
     TheoryEngine.examples := [] |}.

(** A theme whose list of supporting codes writes the same code three
    times. *)
Definition repeating_theme : TheoryEngine.Theme :=
  {| TheoryEngine.name := "Repeating theme";
     TheoryEngine.description := "One code, entered three times";
     TheoryEngine.supportingCodes := ["c1"; "c1"; "c1"];
     TheoryEngine.prevalence := Q2Qc (1 # 10);
     TheoryEngine.examples := [] |}.

Definition coping_theme : TheoryEngine.Theme :=
  {| TheoryEngine.name := "Coping with uncertainty";
     TheoryEngine.description := "How participants cope";
     TheoryEngine.supportingCodes := [];
     TheoryEngine.prevalence := 0;
     TheoryEngine.examples := [] |}.



(** The hierarchy of the specification's example: A has children B and
    C, B has the child D. *)
Definition example_hierarchy : Types.CodeHierarchy :=
  {| Types.rootCodes := ["A"];
     Types.relationships := <["A" := ["B"; "C"]]> (<["B" := ["D"]]> ∅) |}.

Definition example_rank (codeId : string) : nat :=
  if bool_decide (codeId = "A") then 2
  else if bool_decide (codeId = "B") then 1
  else 0.

(** A hierarchy whose only root lists itself as its child. *)
Definition self_referential : Types.CodeHierarchy :=
  {| Types.rootCodes := ["A"];
     Types.relationships := <["A" := ["A"]]> ∅ |}.


(** Two roots, no entry at all. *)
Definition flat_hierarchy : Types.CodeHierarchy :=
  {| Types.rootCodes := ["A"; "B"];
     Types.relationships := ∅ |}.

(** A codebook refined down to zero codes. *)
Definition empty_codebook : Types.Codebook :=
  {| Types.version := "1.0";
     Types.projectName := "remote-work-study";
     Types.methodology := None;
     Types.codes := [];
     Types.codeHierarchy := {| Types.rootCodes := []; Types.relationships := ∅ |};
     Types.refinementNotes := EmptyString;
     Types.qualityMetrics :=
       {| Types.totalCodes := of_nat 0;
          Types.hierarchyDepth := of_nat 0;
          Types.averageCodeFrequency := NaN;
          Types.redundancyScore := of_nat 1 |} |}.

Definition example_quote (n : string) : Types.Quote :=
  {| Types.quote_id := "quote-" +:+ n;
     Types.text := "I found it really isolating at first";
     Types.source := "interview-" +:+ n;
     Types.participant := None;
     Types.quote_context := EmptyString;
     Types.codeLabels := ["experiencing isolation"] |}.

(** A theme backed by five quotes and five of ten participants. *)
Definition well_supported_theme (n : string) : Types.Theme :=
  {| Types.id := "theme-" +:+ n;
     Types.name := "Experiencing isolation " +:+ n;
     Types.centralConcept := "Loss of informal contact";
     Types.definition := "Participants describe missing colleagues";
     Types.relatedCodes := ["code-001"];
     Types.supportingQuotes :=
       [example_quote "001"; example_quote "002"; example_quote "003";
        example_quote "004"; example_quote "005"];
     Types.prevalence :=
       {| Types.participants := of_nat 5;
          Types.totalParticipants := of_nat 10;
          Types.dataPoints := of_nat 5 |};
     Types.significance := "Central to the adaptation process" |}.

(** A theory with no causal conditions, no strategies, one relationship
    and no saturation. *)
Definition bare_theory : Types.GroundedTheory :=
  {| Types.title := "Theory of reconstructing identity";
     Types.coreCategory := "Reconstructing identity";
     Types.paradigm := Types.constructivist;
     Types.paradigmModel :=
       {| Types.phenomenon := "Reconstructing identity";
          Types.causalConditions := [];
          Types.context := ["Home environment"];
          Types.strategies := [];
          Types.consequences := [];
          Types.interveningConditions := [] |};
     Types.storyline := "Workers rebuild their professional selves.";
     Types.theoreticalPropositions := [];
     Types.categoryRelationships :=
       [ {| Types.from := "Home environment";
            Types.to := "Reconstructing identity";
            Types.type := Types.influences;
            Types.explanation := "Context shapes the process";
            Types.evidence := [];
            Types.strength := Types.weak |} ];
     Types.theoreticalIntegration :=
       {| Types.linkedTheories := [];
          Types.contribution := EmptyString;
          Types.novelty := EmptyString;
          Types.practicalImplications := [];
          Types.futureResearch := [] |};
     Types.saturationEvidence :=
       {| Types.categoriesSaturated := false;
          Types.negativeCasesExamined := of_nat 0;
          Types.dataSupport := EmptyString;
          Types.saturatedCategories := [];
          Types.unsaturatedCategories := [] |} |}.


(** A codebook holding a single, fully described code. *)
Definition isolation_code : Types.Code :=
  {| Types.code_id := "code-001";
     Types.label := "Experiencing isolation";
     Types.code_definition := "Participant describes feeling cut off from colleagues";
     Types.whenToUse := "Explicit mention of loneliness";
     Types.whenNotToUse := "General dissatisfaction";
     Types.code_examples := ["I found it really isolating at first"];
     Types.frequency := of_nat 4;
     Types.childCodes := None;
     Types.parentCode := None |}.

Definition single_code_codebook : Types.Codebook :=
  {| Types.version := "1.0";
     Types.projectName := "remote-work-study";
     Types.methodology := None;
     Types.codes := [isolation_code];
     Types.codeHierarchy := {| Types.rootCodes := ["code-001"]; Types.relationships := ∅ |};
     Types.refinementNotes := EmptyString;
     Types.qualityMetrics :=
       {| Types.totalCodes := of_nat 1;
          Types.hierarchyDepth := of_nat 1;
          Types.averageCodeFrequency := of_nat 4;
          Types.redundancyScore := of_nat 0 |} |}.

Definition flexibility_code : Types.Code :=
  {| Types.code_id := "code-007";
     Types.label := "Valuing flexibility";
     Types.code_definition := "Participant describes arranging work around life";
     Types.whenToUse := "Explicit mention of a flexible schedule";
     Types.whenNotToUse := "Flexibility asked of the participant by others";
     Types.code_examples := ["I can pick up the children and log back in later"];
     Types.frequency := of_nat 3;
     Types.childCodes := None;
     Types.parentCode := None |}.

(** A codebook with two codes whose labels differ. *)
Definition two_code_codebook : Types.Codebook :=
  {| Types.version := "1.0";
     Types.projectName := "remote-work-study";
     Types.methodology := None;
     Types.codes := [isolation_code; flexibility_code];
     Types.codeHierarchy :=
       {| Types.rootCodes := ["code-001"; "code-007"]; Types.relationships := ∅ |};
     Types.refinementNotes := EmptyString;
     Types.qualityMetrics :=
       {| Types.totalCodes := of_nat 2;
          Types.hierarchyDepth := of_nat 1;
          Types.averageCodeFrequency := of_nat 3;
          Types.redundancyScore := of_nat 0 |} |}.

(** A paradigm model with two causal conditions and one strategy. *)
Definition partial_model : TheoryEngine.ParadigmModel :=
  {| TheoryEngine.phenomenon := "Losing contact";
     TheoryEngine.causalConditions := ["Office closure"; "Team dispersal"];
     TheoryEngine.context := [];
     TheoryEngine.strategies := ["Scheduling calls"];
     TheoryEngine.consequences := [];
     TheoryEngine.interveningConditions := [] |}.

(** A theme backed by two quotes only. *)
Definition thin_theme : Types.Theme :=
  {| Types.id := "theme-009";
     Types.name := "Valuing flexibility";
     Types.centralConcept := "Control over the working day";
     Types.definition := "Participants describe arranging work around life";
     Types.relatedCodes := ["code-007"];
     Types.supportingQuotes := [example_quote "006"; example_quote "007"];
     Types.prevalence :=
       {| Types.participants := of_nat 2;
          Types.totalParticipants := of_nat 10;
          Types.dataPoints := of_nat 2 |};
     Types.significance := "Explains why some workers prefer to stay remote" |}.

(** A methodology with two stages, numbered from 1 as the validator's
    own message suggests, and two tool lists that overlap. *)
Definition numbered_stage (n : string) (o : Z) : MethodologyLoader.MethodologyStage :=
  {| MethodologyLoader.name := n;
     MethodologyLoader.description := "Stage of the analysis";
     MethodologyLoader.order := Some o;
     MethodologyLoader.promptTemplate := "Analyse {{data}}";
     MethodologyLoader.requires := [];
     MethodologyLoader.inputs := [];
     MethodologyLoader.outputs := [];
     MethodologyLoader.optional := None |}.

Definition example_methodology (first : Z) : MethodologyLoader.Methodology :=
  {| MethodologyLoader.id := "grounded-theory-charmaz";
     MethodologyLoader.methodology_name := "Constructivist Grounded Theory";
     MethodologyLoader.version := "1.0.0";
     MethodologyLoader.author := "community";
     MethodologyLoader.category := "qualitative";
     MethodologyLoader.methodology_description := "Grounded theory after Charmaz";
     MethodologyLoader.stages :=
       [numbered_stage "initial-coding" first; numbered_stage "focused-coding" (first + 1)];
     MethodologyLoader.tools :=
       [("coding", ["autoCoding"; "refineCodebook"]);
        ("theory", ["refineCodebook"; "buildGroundedTheory"])];
     MethodologyLoader.qualityCriteria := [];
     MethodologyLoader.validated := true;
     MethodologyLoader.reviewers := [] |}.

End Examples.

(** * Properties *)

Section TheoryEngineProperties.
Import JS TheoryEngine Spec.

(** ** Paradigm model: where the loop puts each theme *)

Lemma list_of_push_to m b x b' :
  list_of (push_to m b x) b' = if bool_decide (b = b') then list_of m b' ++ [x] else list_of m b'.
Proof. by destruct b, b'. Qed.

Lemma phenomenon_push_to m b x : phenomenon (push_to m b x) = phenomenon m.
Proof. by destruct b. Qed.

Lemma list_of_set_phenomenon m x b : list_of (set_phenomenon m x) b = list_of m b.
Proof. by destruct b. Qed.

Lemma fold_categorize_list_of themes m b :
  list_of (fold_left categorize themes m) b = list_of m b ++ names_in bucket_of b themes.
Proof.
  revert m. induction themes as [|t themes IH]; intros m; simpl.
  - unfold names_in. simpl. by rewrite app_nil_r.
  - rewrite IH. unfold categorize. rewrite list_of_push_to. unfold names_in. simpl.
    destruct (bool_decide (bucket_of t = b)); simpl; [|done].
    by rewrite <- app_assoc.
Qed.

Lemma buildParadigmModel_list_of themes codes b :
  list_of (buildParadigmModel themes codes) b = names_in bucket_of b themes.
Proof.
  unfold buildParadigmModel. destruct themes as [|t themes].
  - by destruct b.
  - rewrite list_of_set_phenomenon. by rewrite fold_categorize_list_of; destruct b.
Qed.

Lemma buildParadigmModel_phenomenon t themes codes :
  phenomenon (buildParadigmModel (t :: themes) codes) = name t.
Proof. reflexivity. Qed.

Lemma five_lists_names themes codes :
  five_lists (buildParadigmModel themes codes) =
  names_in bucket_of CausalConditions themes ++ names_in bucket_of Context_ themes ++
  names_in bucket_of Strategies themes ++ names_in bucket_of Consequences themes ++
  names_in bucket_of InterveningConditions themes.
Proof.
  unfold five_lists.
  by rewrite <- !(buildParadigmModel_list_of themes codes).
Qed.

Lemma names_in_partition (classify : Theme -> Bucket) themes :
  names_in classify CausalConditions themes ++ names_in classify Context_ themes ++
  names_in classify Strategies themes ++ names_in classify Consequences themes ++
  names_in classify InterveningConditions themes ≡ₚ name <$> themes.
Proof.
  induction themes as [|t themes IH]; [done|].
  unfold names_in in *. simpl.
  destruct (classify t); simpl; rewrite <- IH; clear IH.
  - done.
  - by rewrite <- Permutation_middle.
  - by rewrite app_assoc, <- Permutation_middle, <- app_assoc.
  - by rewrite !app_assoc, <- Permutation_middle, <- !app_assoc.
  - by rewrite !app_assoc, <- Permutation_middle, <- !app_assoc.
Qed.

(** ** The core category is the first theme of greatest prevalence *)

Lemma Qc_sub_nonpos (a b : Qc) : (b - a <= 0)%Qc <-> (b <= a)%Qc.
Proof.
  rewrite (Qcplus_le_mono_r b a (- a)%Qc).
  by rewrite Qcplus_opp_r.
Qed.

Lemma head_sort_insert {A : Type} (cmp : A -> A -> Qc) x l :
  head (sort_insert cmp x l) =
  Some (match head l with
        | None => x
        | Some y => if Qc_leb (cmp x y) 0 then x else y
        end).
Proof. destruct l as [|y l]; simpl; [done|]. by destruct (Qc_leb (cmp x y) 0). Qed.

Lemma most_prevalent_ge t ts : (prevalence t <= prevalence (most_prevalent t ts))%Qc.
Proof.
  revert t. induction ts as [|u ts IH]; intros t; simpl.
  - apply Qcle_refl.
  - unfold Qc_ltb. case_bool_decide as Hlt; [|apply IH].
    eapply Qcle_trans; [apply Qclt_le_weak, Hlt | apply IH].
Qed.

Lemma most_prevalent_upper t ts x :
  x ∈ ts -> (prevalence x <= prevalence (most_prevalent t ts))%Qc.
Proof.
  revert t. induction ts as [|u ts IH]; intros t Hx; [by apply elem_of_nil in Hx|].
  simpl. apply elem_of_cons in Hx as [->|Hx].
  - unfold Qc_ltb. case_bool_decide as Hlt; [apply most_prevalent_ge|].
    apply Qcnot_lt_le in Hlt.
    eapply Qcle_trans; [apply Hlt | apply most_prevalent_ge].
  - destruct (Qc_ltb _ _); by apply IH.
Qed.

Lemma most_prevalent_keep t ts :
  (forall x, x ∈ ts -> (prevalence x <= prevalence t)%Qc) -> most_prevalent t ts = t.
Proof.
  revert t. induction ts as [|u ts IH]; intros t Hall; simpl; [done|].
  unfold Qc_ltb. case_bool_decide as Hlt.
  - exfalso. apply (Qclt_not_le _ _ Hlt), Hall. by left.
  - apply IH. intros x Hx. apply Hall. by right.
Qed.

Lemma most_prevalent_swap u t ts :
  (prevalence u <= prevalence t)%Qc ->
  (prevalence t < prevalence (most_prevalent u ts))%Qc ->
  most_prevalent t ts = most_prevalent u ts.
Proof.
  revert u t. induction ts as [|v ts IH]; intros u t Hut Hlt; simpl in *.
  - exfalso. by apply (Qclt_not_le _ _ Hlt).
  - unfold Qc_ltb in *.
    destruct (decide (prevalence t < prevalence v)%Qc) as [Htv|Htv].
    + rewrite (bool_decide_eq_true_2 _ Htv).
      rewrite bool_decide_eq_true_2; [done|].
      eapply Qcle_lt_trans; eauto.
    + rewrite (bool_decide_eq_false_2 _ Htv).
      apply Qcnot_lt_le in Htv.
      case_bool_decide as Huv.
      * by apply IH.
      * by apply IH.
Qed.

(** [identifyCoreCategory] does return the most prevalent theme, the
    first one on ties. *)
Lemma identifyCoreCategory_most_prevalent t ts :
  identifyCoreCategory (t :: ts) = most_prevalent t ts.
Proof.
  unfold identifyCoreCategory. simpl length. simpl Nat.eqb. cbv iota.
  cut (head (sort (fun a b => (prevalence b - prevalence a)%Qc) (t :: ts))
       = Some (most_prevalent t ts)).
  { by intros ->. }
  revert t. induction ts as [|u ts IH]; intros t; [done|].
  change (sort ?c (t :: u :: ts)) with (sort_insert c t (sort c (u :: ts))).
  rewrite head_sort_insert, IH. f_equal. cbn [most_prevalent].
  unfold Qc_leb, Qc_ltb.
  destruct (decide (prevalence t < prevalence u)%Qc) as [Htu|Htu].
  - rewrite (bool_decide_eq_true_2 _ Htu).
    rewrite bool_decide_eq_false_2; [done|].
    rewrite Qc_sub_nonpos. apply Qclt_not_le.
    eapply Qclt_le_trans; [apply Htu | apply most_prevalent_ge].
  - rewrite (bool_decide_eq_false_2 _ Htu). apply Qcnot_lt_le in Htu.
    case_bool_decide as Hle.
    + rewrite Qc_sub_nonpos in Hle. symmetry. apply most_prevalent_keep.
      intros x Hx. eapply Qcle_trans; [|apply Hle]. by apply most_prevalent_upper.
    + rewrite Qc_sub_nonpos in Hle. apply Qcnot_le_lt in Hle.
      symmetry. by apply most_prevalent_swap.
Qed.

(** C1 (a defect of the code).  On the two-theme input
    [minor_theme; major_theme] (prevalence 0.1 then 0.9)
    [buildParadigmModel] sets [phenomenon] to "Minor theme", the first
    theme of the input, while the most prevalent theme, the one
    [identifyCoreCategory] returns for the same input, is "Major theme". *)
Theorem phenomenon_is_first_not_most_prevalent :
  phenomenon (buildParadigmModel [Examples.minor_theme; Examples.major_theme] [])
    = "Minor theme" /\
  name (most_prevalent Examples.minor_theme [Examples.major_theme]) = "Major theme" /\
  name (identifyCoreCategory [Examples.minor_theme; Examples.major_theme]) = "Major theme".
Proof. split; [|split]; by vm_compute. Qed.

(** ** The six slots of the paradigm model *)

Lemma slot_count_phenomenon_twice m :
  phenomenon m ∈ five_lists m -> 2 <= slot_count m (phenomenon m).
Proof.
  unfold five_lists, slot_count, slots. rewrite !elem_of_app. intros Hin. simpl.
  rewrite (bool_decide_eq_true_2 (phenomenon m ∈ [phenomenon m])) by (by left).
  destruct Hin as [H|[H|[H|[H|H]]]]; rewrite (bool_decide_eq_true_2 _ H);
    repeat case_bool_decide; simpl; lia.
Qed.

(** C2, as the specification states it, fails: with the single theme
    "Coping with uncertainty" the name fills [phenomenon] and is also
    pushed to [strategies], so it appears in two of the six slots. *)
Lemma phenomenon_theme_in_two_slots :
  ~ (forall themes codes t,
       t ∈ themes -> slot_count (buildParadigmModel themes codes) (name t) = 1).
Proof.
  intros Hclaim.
  specialize (Hclaim [Examples.coping_theme] [] Examples.coping_theme).
  assert (Hin : Examples.coping_theme ∈ [Examples.coping_theme]) by (by left).
  specialize (Hclaim Hin). vm_compute in Hclaim. discriminate.
Qed.

(** C2 (amended).  The loop sends every theme to exactly one of the five
    lists: together the five lists are a rearrangement of the theme
    names, so none is omitted, and when the names are distinct no name
    is in two lists.  [phenomenon] is filled in addition: for a non-empty
    input it repeats a name that also stays in its list. *)
Theorem paradigm_five_lists_partition themes codes :
  five_lists (buildParadigmModel themes codes) ≡ₚ name <$> themes /\
  (NoDup (name <$> themes) -> NoDup (five_lists (buildParadigmModel themes codes))) /\
  (themes <> [] ->
     phenomenon (buildParadigmModel themes codes) ∈ five_lists (buildParadigmModel themes codes) /\
     2 <= slot_count (buildParadigmModel themes codes)
                     (phenomenon (buildParadigmModel themes codes))).
Proof.
  assert (Hperm : five_lists (buildParadigmModel themes codes) ≡ₚ name <$> themes).
  { rewrite five_lists_names. apply names_in_partition. }
  split; [exact Hperm|]. split.
  - intros Hnd. by rewrite Hperm.
  - intros Hne.
    assert (Hin : phenomenon (buildParadigmModel themes codes)
                  ∈ five_lists (buildParadigmModel themes codes)).
    { rewrite Hperm. destruct themes as [|t themes]; [done|].
      rewrite buildParadigmModel_phenomenon. by left. }
    split; [exact Hin|]. by apply slot_count_phenomenon_twice.
Qed.

Lemma paradigm_five_lists_partition_witness :
  NoDup (five_lists (buildParadigmModel [Examples.minor_theme; Examples.major_theme] [])) /\
  2 <= slot_count (buildParadigmModel [Examples.minor_theme; Examples.major_theme] [])
         (phenomenon (buildParadigmModel [Examples.minor_theme; Examples.major_theme] [])).
Proof.
  destruct (paradigm_five_lists_partition [Examples.minor_theme; Examples.major_theme] [])
    as (_ & Hnodup & Hphen).
  split.
  - apply Hnodup. apply (bool_decide_unpack _). vm_compute. exact I.
  - apply Hphen. discriminate.
Defined.

(** ** Rule order of the classifier *)









(** *** A word ending in "ing" is found by the wider pattern *)





Lemma string_app_assoc (a b c : string) : (a +:+ b) +:+ c = a +:+ (b +:+ c).
Proof.
  induction a as [|x a IH]; [done|].
  change (String x ((a +:+ b) +:+ c) = String x (a +:+ (b +:+ c))). by f_equal.
Qed.









(** ** Relationship inference *)

Lemma sharedCodes_elem A B c :
  c ∈ sharedCodes A B <-> c ∈ supportingCodes A /\ c ∈ supportingCodes B.
Proof.
  unfold sharedCodes, array_includes.
  rewrite list_elem_of_In, filter_In, <- list_elem_of_In, bool_decide_eq_true.
  tauto.
Qed.

Lemma inferRelationship_strength A B :
  inf_strength <$> inferRelationship A B = strength_tier (length (sharedCodes A B)).
Proof.
  unfold inferRelationship.
  destruct (length (sharedCodes A B)) as [|[|[|n]]]; simpl; [done|..];
    repeat match goal with |- context [if ?c then _ else _] => destruct c end; done.
Qed.

Lemma inferRelationship_is_Some A B :
  is_Some (inferRelationship A B) <->
  exists c, c ∈ supportingCodes A /\ c ∈ supportingCodes B.
Proof.
  rewrite <- (fmap_is_Some inf_strength), inferRelationship_strength.
  destruct (sharedCodes A B) as [|c l] eqn:Hshared; simpl.
  - split; [by intros [? ?]|]. intros [c Hc]. apply sharedCodes_elem in Hc.
    rewrite Hshared in Hc. by apply elem_of_nil in Hc.
  - split; [|by destruct l as [|? [|? ?]]; eexists].
    intros _. exists c. apply sharedCodes_elem. rewrite Hshared. by left.
Qed.

Lemma mapCategoryRelationships_elem themes r :
  r ∈ mapCategoryRelationships themes <->
  exists i j A B inf,
    themes !! i = Some A /\ themes !! j = Some B /\ i <> j /\
    inferRelationship A B = Some inf /\ r = relationship_of A B inf.
Proof.
  unfold mapCategoryRelationships. rewrite list_elem_of_bind. split.
  - intros ([i A] & Hr & HiA).
    apply elem_of_lookup_imap in HiA as (i' & A' & Heq & HA). simplify_eq.
    apply list_elem_of_omap in Hr as ([j B] & HjB & Hr).
    apply elem_of_lookup_imap in HjB as (j' & B' & Heq & HB). simplify_eq.
    case_bool_decide as Hij; [done|].
    apply fmap_Some in Hr as (inf & Hinf & ->).
    by exists i', j', A', B', inf.
  - intros (i & j & A & B & inf & HA & HB & Hij & Hinf & ->).
    exists (i, A). split; [|by apply (elem_of_lookup_imap_2 (fun i t => (i, t)))].
    apply list_elem_of_omap. exists (j, B).
    split; [by apply (elem_of_lookup_imap_2 (fun i t => (i, t)))|].
    rewrite bool_decide_eq_false_2 by done. by rewrite Hinf.
Qed.

Lemma filter_shared_length (l k : list string) :
  NoDup l ->
  length (List.filter (fun c => bool_decide (c ∈ k)) l) =
  size ((list_to_set l : gset string) ∩ list_to_set k).
Proof.
  induction l as [|a l IH]; intros Hnodup.
  - simpl. by rewrite intersection_empty_l_L, size_empty.
  - apply NoDup_cons in Hnodup as [Hnotin Hnodup].
    rewrite list_to_set_cons. simpl. case_bool_decide as Hin; simpl; rewrite (IH Hnodup).
    + assert (Heq : ({[a]} ∪ list_to_set l) ∩ list_to_set k
                    =@{gset string} {[a]} ∪ (list_to_set l ∩ list_to_set k)).
      { apply set_eq. intros x.
        rewrite elem_of_intersection, !elem_of_union, elem_of_intersection,
          elem_of_singleton, !elem_of_list_to_set.
        intuition (subst; auto; contradiction). }
      rewrite Heq.
      rewrite (size_union (C:=gset string) {[a]} (list_to_set l ∩ list_to_set k)).
      * by rewrite size_singleton.
      * intros x. rewrite elem_of_singleton, elem_of_intersection, !elem_of_list_to_set.
        intuition (subst; auto; contradiction).
    + f_equal. apply set_eq. intros x.
      rewrite !elem_of_intersection, elem_of_union, elem_of_singleton,
        !elem_of_list_to_set.
      intuition (subst; auto; contradiction).
Qed.

(** Without repeated entries in the first theme's list, the number of
    shared codes is the number of distinct identifiers the two themes
    have in common. *)
Lemma sharedCodes_length_distinct A B :
  NoDup (supportingCodes A) ->
  length (sharedCodes A B) =
  size ((list_to_set (supportingCodes A) : gset string) ∩ list_to_set (supportingCodes B)).
Proof. apply filter_shared_length. Qed.

Example inferRelationship_minor_major :
  mapCategoryRelationships [Examples.minor_theme; Examples.major_theme] =
  [ relationship_of Examples.minor_theme Examples.major_theme
      {| inf_type := influences;
         inf_explanation :=
           dquote +:+ "Minor theme" +:+ dquote +:+ " influences " +:+
           dquote +:+ "Major theme" +:+ dquote +:+ " through shared underlying processes";
         inf_strength := weak |};
    relationship_of Examples.major_theme Examples.minor_theme
      {| inf_type := influences;
         inf_explanation :=
           dquote +:+ "Major theme" +:+ dquote +:+ " influences " +:+
           dquote +:+ "Minor theme" +:+ dquote +:+ " through shared underlying processes";
         inf_strength := weak |} ].
Proof. by vm_compute. Qed.

Example formatList_one : formatList ["X"] = "x".
Proof. reflexivity. Qed.

Example formatList_two : formatList ["x"; "Y"] = "x and y".
Proof. reflexivity. Qed.

Example formatList_three : formatList ["x"; "y"; "z"] = "x, y, and z".
Proof. reflexivity. Qed.

Example gerund_pattern :
  test_w_ing "missing informal interactions" = true /\
  test_w_ing "ing" = false /\
  test_w_ing "singer" = true.
Proof. by vm_compute. Qed.

Lemma sharedCodes_length A B : length (sharedCodes A B) = shared_entries A B.
Proof.
  unfold sharedCodes, shared_entries, array_includes.
  induction (supportingCodes A) as [|c l IH]; simpl; [done|].
  case_bool_decide; simpl; by rewrite IH.
Qed.

Lemma relationship_of_emitted themes i j A B :
  themes !! i = Some A -> themes !! j = Some B -> i <> j ->
  (exists c, c ∈ supportingCodes A /\ c ∈ supportingCodes B) ->
  exists r, r ∈ mapCategoryRelationships themes /\
            from r = name A /\ to r = name B /\
            strength_tier (shared_entries A B) = Some (strength r).
Proof.
  intros HA HB Hij Hshared.
  apply inferRelationship_is_Some in Hshared as [inf Hinf].
  exists (relationship_of A B inf). split; [|split; [done|split; [done|]]].
  - apply mapCategoryRelationships_elem. by exists i, j, A, B, inf.
  - rewrite <- sharedCodes_length, <- inferRelationship_strength. by rewrite Hinf.
Qed.

Lemma relationship_emitted_of themes r :
  r ∈ mapCategoryRelationships themes ->
  exists i j A B,
    themes !! i = Some A /\ themes !! j = Some B /\ i <> j /\
    from r = name A /\ to r = name B /\
    strength_tier (shared_entries A B) = Some (strength r).
Proof.
  intros Hr. apply mapCategoryRelationships_elem in Hr
    as (i & j & A & B & inf & HA & HB & Hij & Hinf & ->).
  exists i, j, A, B. repeat (split; [done|]).
  rewrite <- sharedCodes_length, <- inferRelationship_strength. by rewrite Hinf.
Qed.

(** C6, as the specification states it, fails when a list of supporting
    codes repeats an entry: the strength does not follow the number of
    identifiers the two themes share.  A theme listing "c1" three times
    shares the single identifier "c1" with a theme listing "c1" once, yet
    the relationship from the first to the second is strong: the filter
    keeps all three entries. *)
Lemma repeated_code_counts_each_time :
  ~ (forall A B,
       inf_strength <$> inferRelationship A B
       = strength_tier (size (shared_identifiers A B))).
Proof.
  intros Hclaim.
  specialize (Hclaim Examples.repeating_theme Examples.minor_theme).
  vm_compute in Hclaim. discriminate.
Qed.

(** C6 (amended).  [inferRelationship] yields a relationship exactly when
    the two themes have a supporting code in common, whatever their
    names.  Its strength is weak, moderate or strong as the number of
    entries of the first theme's list that occur in the second theme's
    list is 1, 2 or more than 2; an entry written several times counts
    each time, so that this is the number of shared identifiers when the
    first list repeats nothing.  [mapCategoryRelationships] emits, for
    the themes at two distinct positions that share a code, a
    relationship that runs from the name of the first to the name of the
    second with that strength, and it emits nothing else. *)
Theorem relationships_from_shared_codes_only :
  (forall A B,
     is_Some (inferRelationship A B) <->
     exists c, c ∈ supportingCodes A /\ c ∈ supportingCodes B) /\
  (forall A B,
     inf_strength <$> inferRelationship A B = strength_tier (shared_entries A B)) /\
  (forall A B,
     NoDup (supportingCodes A) -> shared_entries A B = size (shared_identifiers A B)) /\
  (forall themes r,
     r ∈ mapCategoryRelationships themes ->
     exists i j A B,
       themes !! i = Some A /\ themes !! j = Some B /\ i <> j /\
       from r = name A /\ to r = name B /\
       strength_tier (shared_entries A B) = Some (strength r)) /\
  (forall themes i j A B,
     themes !! i = Some A -> themes !! j = Some B -> i <> j ->
     (exists c, c ∈ supportingCodes A /\ c ∈ supportingCodes B) ->
     exists r, r ∈ mapCategoryRelationships themes /\
               from r = name A /\ to r = name B /\
               strength_tier (shared_entries A B) = Some (strength r)).
Proof.
  split; [exact inferRelationship_is_Some|].
  split; [by intros A B; rewrite inferRelationship_strength, sharedCodes_length|].
  split; [by intros A B HA; rewrite <- sharedCodes_length; apply sharedCodes_length_distinct|].
  split; [exact relationship_emitted_of|exact relationship_of_emitted].
Qed.

Lemma relationships_from_shared_codes_only_witness :
  shared_entries Examples.major_theme Examples.minor_theme =
    size (shared_identifiers Examples.major_theme Examples.minor_theme) /\
  (exists r, r ∈ mapCategoryRelationships [Examples.minor_theme; Examples.major_theme] /\
             from r = "Minor theme" /\ to r = "Major theme" /\
             strength_tier (shared_entries Examples.minor_theme Examples.major_theme)
             = Some (strength r)).
Proof.
  destruct relationships_from_shared_codes_only as (_ & _ & Hdistinct & _ & Hemitted).
  split.
  - apply Hdistinct. apply (bool_decide_unpack _). vm_compute. exact I.
  - apply (Hemitted [Examples.minor_theme; Examples.major_theme] 0 1
             Examples.minor_theme Examples.major_theme); [done|done|lia|].
    exists "c1". split; [by left|by left].
Defined.

(** ** Theory construction on an empty theme list *)

(** C10.  With no themes [identifyCoreCategory] returns the placeholder
    "Unknown Process" (prevalence 0, no supporting codes) and
    [buildGroundedTheory] still returns a complete theory, titled
    "Theory of Unknown Process". *)
Theorem empty_themes_unknown_process codes researchQuestion paradigm_opt now :
  identifyCoreCategory [] = unknown_process /\
  name (identifyCoreCategory []) = "Unknown Process" /\
  prevalence (identifyCoreCategory []) = 0%Qc /\
  supportingCodes (identifyCoreCategory []) = [] /\
  buildGroundedTheory codes [] researchQuestion paradigm_opt now =
    {| title := "Theory of Unknown Process";
       coreCategory := "Unknown Process";
       paradigm := default constructivist paradigm_opt;
       paradigmModel := empty_model;
       storyline :=
         "This grounded theory explains the process of unknown process. " +:+
         newline +:+ newline +:+
         "The data reveals 0 interconnected themes that together explain how participants navigate unknown process. " +:+
         "This theory demonstrates that the process is not linear but involves continuous interaction between individual actions, contextual factors, and evolving outcomes.";
       theoreticalPropositions :=
         [ "The identified themes represent interconnected processes in participants' experiences";
           "Context and individual factors mediate how these processes manifest";
           "The overall process is dynamic and evolves over time" ];
       categoryRelationships := [];
       metadata := {| researchQuestion := researchQuestion; createdAt := now |} |}.
Proof. repeat split; vm_compute; reflexivity. Qed.

End TheoryEngineProperties.

Section HierarchyProperties.
Import Types RefineCodebook Spec Invariants.

(** ** Calls that return, throw or run out of budget *)

Lemma array_map_Normal {A B : Type} (f : A -> Completion B) l ys :
  array_map f l = Normal ys <-> Forall2 (fun x y => f x = Normal y) l ys.
Proof.
  revert ys. induction l as [|x l IH]; intros ys; simpl.
  - split.
    + intros Hys. injection Hys as <-. constructor.
    + intros Hys. by apply Forall2_nil_inv_l in Hys as ->.
  - split.
    + destruct (f x) as [y| |] eqn:Hx; simpl; [|done|done].
      destruct (array_map f l) as [ys'| |] eqn:Hl; simpl; [|done|done].
      intros Hys. injection Hys as <-. constructor; [done|]. by apply IH.
    + intros Hys. apply Forall2_cons_inv_l in Hys as (y & ys' & Hy & Hys' & ->).
      rewrite Hy. simpl. apply IH in Hys'. by rewrite Hys'.
Qed.

Lemma array_map_ended {A B : Type} (f g : A -> Completion B) l c :
  (forall x c', x ∈ l -> f x = c' -> c' <> Exhausted -> g x = c') ->
  array_map f l = c -> c <> Exhausted -> array_map g l = c.
Proof.
  revert c. induction l as [|x l IH]; intros c Hfg Hc Hne; simpl in *; [done|].
  assert (Hx : forall c', f x = c' -> c' <> Exhausted -> g x = c').
  { intros c'. apply Hfg. by left. }
  assert (Hl : forall c', array_map f l = c' -> c' <> Exhausted -> array_map g l = c').
  { intros c'. apply IH. intros y c'' Hy. apply Hfg. by right. }
  destruct (f x) as [y| |] eqn:Hfx; simpl in Hc.
  - rewrite (Hx (Normal y)) by done. simpl.
    destruct (array_map f l) as [ys| |] eqn:Hfl; simpl in Hc.
    + by rewrite (Hl (Normal ys)).
    + by rewrite (Hl TypeError).
    + by subst c.
  - by rewrite (Hx TypeError).
  - by subst c.
Qed.

Lemma array_map_not_Exhausted {A B : Type} (f : A -> Completion B) l :
  (forall x, x ∈ l -> f x <> Exhausted) -> array_map f l <> Exhausted.
Proof.
  induction l as [|x l IH]; intros Hf; simpl; [done|].
  assert (Hx : f x <> Exhausted) by (apply Hf; by left).
  assert (Hl : array_map f l <> Exhausted).
  { apply IH. intros y Hy. apply Hf. by right. }
  destruct (f x); simpl; [|done|done].
  destruct (array_map f l); simpl; done.
Qed.

Lemma array_map_TypeError {A B : Type} (f : A -> Completion B) l :
  array_map f l = TypeError -> exists x, x ∈ l /\ f x = TypeError.
Proof.
  induction l as [|x l IH]; simpl; [done|].
  destruct (f x) as [y| |] eqn:Hx; simpl; [|by exists x; split; [left|]|done].
  destruct (array_map f l) as [ys| |]; simpl; [done| |done].
  intros _. destruct IH as (z & Hz & Hfz); [done|]. exists z. split; [by right|done].
Qed.

Lemma fold_left_not_Normal {A : Type} (g : A -> Completion nat) l c :
  (forall a, c <> Normal a) ->
  fold_left (fun acc x => m ← acc; d ← g x; Normal (Nat.max m d)) l c = c.
Proof.
  intros Hc. induction l as [|x l IH]; simpl; [done|].
  destruct c as [a| |]; simpl; [by destruct (Hc a)|exact IH|exact IH].
Qed.

Lemma fold_left_max_array_map {A : Type} (g : A -> Completion nat) l a :
  fold_left (fun acc x => m ← acc; d ← g x; Normal (Nat.max m d)) l (Normal a) =
  ds ← array_map g l; Normal (Nat.max a (max_list ds)).
Proof.
  revert a. induction l as [|x l IH]; intros a; simpl.
  - by rewrite Nat.max_0_r.
  - destruct (g x) as [d| |]; simpl.
    + rewrite IH. destruct (array_map g l); simpl; [|done|done].
      by rewrite Nat.max_assoc.
    + by apply fold_left_not_Normal.
    + by apply fold_left_not_Normal.
Qed.

(** ** Reading an identifier from [relationships] *)

Lemma inherited_not_array key elements :
  inherited Object_prototype key <> VArray elements.
Proof. unfold Object_prototype. simpl. repeat case_bool_decide; done. Qed.

Lemma inherited_value_traversable x :
  match or_empty_array (inherited Object_prototype x) with
  | VArray _ => true
  | v => length_is_zero v
  end = negb (bool_decide (x ∈ inherited_names)).
Proof.
  unfold Object_prototype, inherited_names. simpl.
  repeat (case_bool_decide; [simplify_eq; by vm_compute|]).
  simpl. symmetry. apply negb_true_iff, bool_decide_eq_false_2. intros Hin.
  repeat (apply elem_of_cons in Hin as [->|Hin]; [done|]).
  by apply elem_of_nil in Hin.
Qed.

(** An identifier cannot be traversed exactly when it has no own entry
    and is one of the nine inherited names. *)
Lemma traversable_false rel x :
  traversable rel x = false <-> rel !! x = None /\ x ∈ inherited_names.
Proof.
  unfold traversable, get. destruct (rel !! x) as [cs|].
  - simpl. split; [done|]. by intros [? _].
  - rewrite inherited_value_traversable, negb_false_iff, bool_decide_eq_true.
    split; [done|]. by intros [_ ?].
Qed.

Lemma plain_identifiers_traversable h :
  plain_identifiers h -> forall x, reachable h x -> traversable (relationships h) x = true.
Proof.
  intros Hplain x Hx. destruct (traversable (relationships h) x) eqn:Ht; [done|].
  apply traversable_false in Ht as [Hnone Hin]. by destruct (Hplain x Hx Hnone).
Qed.

(** ** The depth calculator *)

(** One call: a [TypeError] for an identifier that cannot be traversed,
    otherwise the listed children decide. *)
Lemma getDepth_S fuel rel x d :
  getDepth (S fuel) rel x d =
  if traversable rel x then
    if (length (listed_children rel x) =? 0)%nat then Normal d
    else childDepths ← array_map (fun c => getDepth fuel rel c (d + 1)) (listed_children rel x);
         Normal (max_list childDepths)
  else TypeError.
Proof.
  pose proof (inherited_not_array x) as Hv.
  unfold traversable, listed_children. cbn [getDepth]. unfold get.
  destruct (rel !! x) as [cs|]; [by destruct cs|].
  destruct (inherited Object_prototype x) as [cs|n| |].
  - by destruct (Hv cs).
  - by destruct n.
  - done.
  - done.
Qed.

(** The loop over the roots is a maximum over the depths of the roots. *)
Lemma calculateHierarchyDepth_array_map fuel h :
  calculateHierarchyDepth fuel h =
  depths ← array_map (fun r => getDepth fuel (relationships h) r 1) (rootCodes h);
  Normal (max_list depths).
Proof.
  unfold calculateHierarchyDepth.
  apply (fold_left_max_array_map (fun r => getDepth fuel (relationships h) r 1)).
Qed.

(** A call that has ended ends the same way with any larger budget. *)
Lemma getDepth_mono rel fuel fuel' x d c :
  fuel <= fuel' -> getDepth fuel rel x d = c -> c <> Exhausted ->
  getDepth fuel' rel x d = c.
Proof.
  revert fuel' x d c. induction fuel as [|fuel IH]; intros fuel' x d c Hle Hc Hne.
  { simpl in Hc. by subst c. }
  destruct fuel' as [|fuel']; [lia|].
  rewrite getDepth_S in *. destruct (traversable rel x); [|done].
  destruct (length (listed_children rel x) =? 0)%nat; [done|].
  assert (Hmap : forall c',
            array_map (fun c0 => getDepth fuel rel c0 (d + 1)) (listed_children rel x) = c' ->
            c' <> Exhausted ->
            array_map (fun c0 => getDepth fuel' rel c0 (d + 1)) (listed_children rel x) = c').
  { intros c'. apply array_map_ended.
    intros y c'' _ Hy Hc''. apply (IH fuel' y (d + 1) c''); [lia|done|done]. }
  destruct (array_map (fun c0 => getDepth fuel rel c0 (d + 1)) (listed_children rel x))
    as [ds| |] eqn:Hds; simpl in Hc; subst c.
  - by rewrite (Hmap (Normal ds)).
  - by rewrite (Hmap TypeError).
  - done.
Qed.

Lemma calculateHierarchyDepth_mono h fuel fuel' c :
  fuel <= fuel' -> calculateHierarchyDepth fuel h = c -> c <> Exhausted ->
  calculateHierarchyDepth fuel' h = c.
Proof.
  intros Hle. rewrite !calculateHierarchyDepth_array_map. intros Hc Hne.
  assert (Hmap : forall c',
            array_map (fun r => getDepth fuel (relationships h) r 1) (rootCodes h) = c' ->
            c' <> Exhausted ->
            array_map (fun r => getDepth fuel' (relationships h) r 1) (rootCodes h) = c').
  { intros c'. apply array_map_ended.
    intros y c'' _ Hy Hc''. by apply (getDepth_mono _ fuel fuel'). }
  destruct (array_map (fun r => getDepth fuel (relationships h) r 1) (rootCodes h))
    as [ds| |] eqn:Hds; simpl in Hc; subst c.
  - by rewrite (Hmap (Normal ds)).
  - by rewrite (Hmap TypeError).
  - done.
Qed.

Lemma getDepth_Normal_traversable rel fuel x d r :
  getDepth fuel rel x d = Normal r -> traversable rel x = true.
Proof.
  destruct fuel as [|fuel]; [done|]. rewrite getDepth_S.
  by destruct (traversable rel x).
Qed.






Lemma getDepth_child rel fuel x d r c :
  getDepth (S fuel) rel x d = Normal r -> c ∈ listed_children rel x ->
  exists r', getDepth fuel rel c (d + 1) = Normal r'.
Proof.
  rewrite getDepth_S. intros Hr Hc. destruct (traversable rel x); [|done].
  destruct (length (listed_children rel x) =? 0)%nat eqn:Hlen.
  - apply Nat.eqb_eq, nil_length_inv in Hlen. rewrite Hlen in Hc.
    by apply elem_of_nil in Hc.
  - destruct (array_map _ _) as [ds| |] eqn:Hds; [|done|done].
    apply array_map_Normal in Hds.
    apply list_elem_of_lookup in Hc as [i Hi].
    destruct (Forall2_lookup_l _ _ _ _ _ Hds Hi) as (r' & _ & Hr').
    by exists r'.
Qed.

(** A call that returns forces, for every descendant, a call with a
    strictly smaller budget that returns. *)
Lemma getDepth_descend h x y :
  tc (child h) x y ->
  forall fuel d r, getDepth fuel (relationships h) x d = Normal r ->
  exists fuel' d' r', fuel' < fuel /\ getDepth fuel' (relationships h) y d' = Normal r'.
Proof.
  induction 1 as [x y Hxy|x y z Hxy _ IH]; intros fuel d r Hr.
  - destruct fuel as [|fuel]; [done|].
    destruct (getDepth_child _ _ _ _ _ _ Hr Hxy) as [r' Hr'].
    exists fuel, (d + 1), r'. split; [lia|done].
  - destruct fuel as [|fuel]; [done|].
    destruct (getDepth_child _ _ _ _ _ _ Hr Hxy) as [r' Hr'].
    destruct (IH fuel (d + 1) r' Hr') as (fuel' & d' & r'' & Hlt & Hz).
    exists fuel', d', r''. split; [lia|done].
Qed.

Lemma getDepth_cycle_never_returns h x :
  tc (child h) x x -> forall fuel d r, getDepth fuel (relationships h) x d <> Normal r.
Proof.
  intros Hcycle fuel. induction (lt_wf fuel) as [fuel _ IH]. intros d r Hr.
  destruct (getDepth_descend h x x Hcycle fuel d r Hr) as (fuel' & d' & r' & Hlt & Hr').
  exact (IH fuel' Hlt d' r' Hr').
Qed.

Lemma reachable_returns h fuel m x :
  calculateHierarchyDepth fuel h = Normal m -> reachable h x ->
  exists fuel' d r, getDepth fuel' (relationships h) x d = Normal r.
Proof.
  intros Hm. induction 1 as [r Hr|p c _ (fuel' & d & rp & Hp) Hc].
  - rewrite calculateHierarchyDepth_array_map in Hm.
    destruct (array_map _ _) as [ds| |] eqn:Hds; [|done|done].
    apply array_map_Normal in Hds.
    apply list_elem_of_lookup in Hr as [i Hi].
    destruct (Forall2_lookup_l _ _ _ _ _ Hds Hi) as (r' & _ & Hr').
    by exists fuel, 1, r'.
  - destruct fuel' as [|fuel']; [done|].
    destruct (getDepth_child _ _ _ _ _ _ Hp Hc) as [r' Hr'].
    by exists fuel', (d + 1), r'.
Qed.

(** The calculator returns no depth when it can reach an identifier that
    cannot be traversed, or a cycle. *)
Lemma untraversable_never_returns h x :
  reachable h x -> traversable (relationships h) x = false ->
  forall fuel m, calculateHierarchyDepth fuel h <> Normal m.
Proof.
  intros Hx Hbad fuel m Hm.
  destruct (reachable_returns h fuel m x Hm Hx) as (fuel' & d & r & Hr).
  apply getDepth_Normal_traversable in Hr. congruence.
Qed.

Lemma cycle_never_returns h x :
  reachable h x -> tc (child h) x x ->
  forall fuel m, calculateHierarchyDepth fuel h <> Normal m.
Proof.
  intros Hx Hcycle fuel m Hm.
  destruct (reachable_returns h fuel m x Hm Hx) as (fuel' & d & r & Hr).
  exact (getDepth_cycle_never_returns h x Hcycle fuel' d r Hr).
Qed.

Lemma getDepth_no_TypeError h :
  (forall x, reachable h x -> traversable (relationships h) x = true) ->
  forall fuel x d, reachable h x -> getDepth fuel (relationships h) x d <> TypeError.
Proof.
  intros Hsafe. induction fuel as [|fuel IH]; intros x d Hx; [done|].
  rewrite getDepth_S, (Hsafe x Hx).
  destruct (length _ =? 0)%nat; [done|].
  destruct (array_map _ _) as [ds| |] eqn:Hds; [done| |done].
  apply array_map_TypeError in Hds as (c & Hc & Hthrow).
  destruct (IH c (d + 1)); [|done]. by apply (reachable_child h x c).
Qed.

Lemma calculateHierarchyDepth_no_TypeError h fuel :
  (forall x, reachable h x -> traversable (relationships h) x = true) ->
  calculateHierarchyDepth fuel h <> TypeError.
Proof.
  intros Hsafe. rewrite calculateHierarchyDepth_array_map.
  destruct (array_map _ _) as [ds| |] eqn:Hds; [done| |done].
  apply array_map_TypeError in Hds as (r & Hr & Hthrow).
  destruct (getDepth_no_TypeError h Hsafe fuel r 1); [|done]. by apply reachable_root.
Qed.

Lemma getDepth_ranked h (rank : string -> nat) :
  (forall p c, reachable h p -> child h p c -> rank c < rank p) ->
  forall fuel x d, reachable h x -> rank x < fuel ->
  getDepth fuel (relationships h) x d <> Exhausted.
Proof.
  intros Hrank. induction fuel as [|fuel IH]; intros x d Hx Hlt; [lia|].
  rewrite getDepth_S. destruct (traversable _ _); [|done].
  destruct (length _ =? 0)%nat; [done|].
  assert (Hall : array_map (fun c => getDepth fuel (relationships h) c (d + 1))
                           (listed_children (relationships h) x) <> Exhausted).
  { apply array_map_not_Exhausted. intros c Hc. apply IH.
    - by eapply reachable_child.
    - specialize (Hrank x c Hx Hc). lia. }
  by destruct (array_map _ _).
Qed.

Lemma calculateHierarchyDepth_ranked h (rank : string -> nat) :
  (forall p c, reachable h p -> child h p c -> rank c < rank p) ->
  calculateHierarchyDepth (S (max_list (rank <$> rootCodes h))) h <> Exhausted.
Proof.
  intros Hrank. rewrite calculateHierarchyDepth_array_map.
  assert (Hall : array_map (fun r => getDepth (S (max_list (rank <$> rootCodes h)))
                                              (relationships h) r 1)
                           (rootCodes h) <> Exhausted).
  { apply array_map_not_Exhausted. intros r Hr.
    apply (getDepth_ranked h rank Hrank); [by apply reachable_root|].
    assert (rank r ∈ rank <$> rootCodes h) as Hin by (by apply list_elem_of_fmap_2).
    apply max_list_elem_of_le in Hin. lia. }
  by destruct (array_map _ _).
Qed.




(** ** The calculator against the reference definition *)




(** ** Termination of the depth calculator *)

(** C3, as the specification states it, fails: the calculator has no
    visited set and no error path for a cycle.  On the hierarchy whose
    root "A" lists itself as its child, no budget of nested calls lets the
    call end, with a depth or with an error. *)
Lemma self_reference_never_returns :
  ~ (exists fuel, calculateHierarchyDepth fuel Examples.self_referential <> Exhausted).
Proof.
  intros [fuel Hended].
  assert (Hroot : reachable Examples.self_referential "A").
  { apply reachable_root. by left. }
  destruct (calculateHierarchyDepth fuel Examples.self_referential) as [m| |] eqn:Hm;
    [| |done].
  - apply (cycle_never_returns _ "A" Hroot) in Hm; [done|].
    apply tc_once. unfold child. vm_compute. by left.
  - apply (calculateHierarchyDepth_no_TypeError Examples.self_referential fuel) in Hm; [done|].
    intros x Hx. assert (Hin : x ∈ ["A"]).
    { clear -Hx. induction Hx as [r Hr|p c _ Hp Hc]; [done|].
      apply list_elem_of_singleton in Hp as ->. unfold child in Hc. by vm_compute in Hc. }
    apply list_elem_of_singleton in Hin as ->. by vm_compute.
Qed.

(** C3 (amended).  When the part of the hierarchy that the roots reach is
    acyclic (children can be ranked strictly below their parent) the
    calculation ends, the same way for every larger budget: with a depth
    when every identifier it reaches has an entry of its own or is none of
    the nine inherited names, and with a TypeError when it reaches one of
    these names without an entry of its own.  When a cycle or
    self-reference is reachable from a root the call returns no depth,
    and it never ends when no such name is reached: nothing tracks
    visited nodes. *)
Theorem hierarchy_depth_termination h :
  (forall rank : string -> nat,
     (forall p c, reachable h p -> child h p c -> rank c < rank p) ->
     exists fuel c,
       c <> Exhausted /\
       (forall fuel', fuel <= fuel' -> calculateHierarchyDepth fuel' h = c) /\
       (plain_identifiers h -> exists d, c = Normal d) /\
       (forall x, reachable h x -> relationships h !! x = None -> x ∈ inherited_names ->
        c = TypeError)) /\
  (forall x, reachable h x -> tc (child h) x x ->
     (forall fuel d, calculateHierarchyDepth fuel h <> Normal d) /\
     (plain_identifiers h -> forall fuel, calculateHierarchyDepth fuel h = Exhausted)).
Proof.
  split.
  - intros rank Hrank.
    set (fuel := S (max_list (rank <$> rootCodes h))).
    pose proof (calculateHierarchyDepth_ranked h rank Hrank) as Hended. fold fuel in Hended.
    exists fuel, (calculateHierarchyDepth fuel h). split; [done|]. split; [|split].
    + intros fuel' Hle. by apply (calculateHierarchyDepth_mono _ fuel).
    + intros Hplain.
      pose proof (calculateHierarchyDepth_no_TypeError h fuel
                    (plain_identifiers_traversable h Hplain)) as Hno.
      destruct (calculateHierarchyDepth fuel h) as [d| |]; [by exists d|done|done].
    + intros x Hx Hnone Hin.
      assert (Hbad : traversable (relationships h) x = false) by (by apply traversable_false).
      pose proof (untraversable_never_returns h x Hx Hbad fuel) as Hno.
      destruct (calculateHierarchyDepth fuel h) as [d| |]; [by destruct (Hno d)|done|done].
  - intros x Hx Hcycle. split.
    + by apply (cycle_never_returns h x).
    + intros Hplain fuel.
      pose proof (cycle_never_returns h x Hx Hcycle fuel) as Hno.
      pose proof (calculateHierarchyDepth_no_TypeError h fuel
                    (plain_identifiers_traversable h Hplain)) as Hno'.
      destruct (calculateHierarchyDepth fuel h) as [d| |]; [by destruct (Hno d)|done|done].
Qed.

Lemma example_rank_decreases p c :
  child Examples.example_hierarchy p c -> Examples.example_rank c < Examples.example_rank p.
Proof.
  unfold child, listed_children. simpl relationships.
  destruct (decide (p = "A")) as [->|HA].
  - rewrite lookup_insert_eq. simpl. intros Hc.
    apply elem_of_cons in Hc as [->|Hc]; [vm_compute; lia|].
    apply elem_of_cons in Hc as [->|Hc]; [vm_compute; lia|].
    by apply elem_of_nil in Hc.
  - rewrite lookup_insert_ne by done.
    destruct (decide (p = "B")) as [->|HB].
    + rewrite lookup_insert_eq. simpl. intros Hc.
      apply elem_of_cons in Hc as [->|Hc]; [vm_compute; lia|].
      by apply elem_of_nil in Hc.
    + rewrite lookup_insert_ne by done. rewrite lookup_empty. simpl.
      intros Hc. by apply elem_of_nil in Hc.
Qed.

Lemma hierarchy_depth_termination_witness :
  (exists fuel c,
     c <> Exhausted /\
     (forall fuel', fuel <= fuel' ->
        calculateHierarchyDepth fuel' Examples.example_hierarchy = c) /\
     (plain_identifiers Examples.example_hierarchy -> exists d, c = Normal d) /\
     (forall x, reachable Examples.example_hierarchy x ->
        relationships Examples.example_hierarchy !! x = None -> x ∈ inherited_names ->
        c = TypeError)) /\
  (forall fuel d, calculateHierarchyDepth fuel Examples.self_referential <> Normal d).
Proof.
  split.
  - apply (proj1 (hierarchy_depth_termination Examples.example_hierarchy)
             Examples.example_rank).
    intros p c _. apply example_rank_decreases.
  - apply (proj2 (hierarchy_depth_termination Examples.self_referential) "A").
    + apply reachable_root. by left.
    + apply tc_once. unfold child. vm_compute. by left.
Defined.

End HierarchyProperties.

Section ValidatorProperties.
Import JS Types QualityValidation Spec.

(** ** Arithmetic on numbers *)

Ltac number_eq :=
  vm_compute;
  repeat match goal with
         | |- Some _ = Some _ => apply (f_equal Some)
         | |- Fin _ = Fin _ => apply (f_equal Fin)
         end;
  first [reflexivity | apply Qc_is_canon; reflexivity].

(** ** Theory validator: credibility *)

(** C9.  The credibility score is the sum of four independent
    contributions: 0.2 for a non-empty [causalConditions], 0.2 for a
    non-empty [strategies], 0.3 for at least three relationships and 0.3
    for the saturation flag; a theory with none of these (one
    relationship only) scores 0. *)
Theorem credibility_is_sum_of_indicators theory :
  score (criteriaScores (validateGroundedTheory theory)) "credibility" =
    Some (add (add (add
      (indicator (0 <? length (causalConditions (paradigmModel theory)))%nat (decimal 2 10))
      (indicator (0 <? length (strategies (paradigmModel theory)))%nat (decimal 2 10)))
      (indicator (3 <=? length (categoryRelationships theory))%nat (decimal 3 10)))
      (indicator (categoriesSaturated (saturationEvidence theory)) (decimal 3 10))) /\
  (causalConditions (paradigmModel theory) = [] ->
   strategies (paradigmModel theory) = [] ->
   length (categoryRelationships theory) = 1 ->
   categoriesSaturated (saturationEvidence theory) = false ->
   score (criteriaScores (validateGroundedTheory theory)) "credibility" = Some (of_nat 0)).
Proof.
  unfold validateGroundedTheory. cbn [criteriaScores score].
  rewrite bool_decide_eq_true_2 by done.
  split.
  - destruct (0 <? length (causalConditions _))%nat,
             (0 <? length (strategies _))%nat,
             (3 <=? length (categoryRelationships _))%nat,
             (categoriesSaturated _); unfold indicator; number_eq.
  - intros -> -> -> ->. reflexivity.
Qed.

Lemma credibility_is_sum_of_indicators_witness :
  score (criteriaScores (validateGroundedTheory Examples.bare_theory)) "credibility"
  = Some (of_nat 0).
Proof.
  apply (proj2 (credibility_is_sum_of_indicators Examples.bare_theory)); reflexivity.
Defined.

(** ** Validators on empty input *)

(** C4, as the specification states it, fails: neither validator has an
    error path (their result type is the assessment itself).  On a
    codebook with zero codes [validateCodebook] returns an assessment
    whose [clarity] score is NaN. *)
Lemma empty_codebook_scores_NaN :
  ~ (forall codebook methodology,
       codes codebook = [] ->
       forall criterion v,
         score (criteriaScores (validateCodebook codebook methodology)) criterion = Some v ->
         is_NaN v = false).
Proof.
  intros Hclaim.
  specialize (Hclaim Examples.empty_codebook None eq_refl "clarity" NaN).
  assert (Hscore : score (criteriaScores (validateCodebook Examples.empty_codebook None))
                         "clarity" = Some NaN) by (by vm_compute).
  specialize (Hclaim Hscore). discriminate.
Qed.

Lemma add_NaN_l a : add NaN a = NaN.
Proof. by destruct a. Qed.

Lemma add_NaN_r a : add a NaN = NaN.
Proof. by destruct a. Qed.

(** C4 (amended).  Invoked with zero codes or zero themes the validators
    do not fail: they return an assessment.  Every criterion that is a
    ratio over the number of items is NaN ([clarity], [distinctiveness]
    and [examples] of a codebook; [coherence], [dataSupport],
    [relevance] and [prevalence] of a theme list), hence the overall
    quality is NaN and the threshold is not passed. *)
Theorem empty_input_returns_NaN_scores :
  (forall codebook methodology,
     codes codebook = [] ->
     score (criteriaScores (validateCodebook codebook methodology)) "clarity" = Some NaN /\
     score (criteriaScores (validateCodebook codebook methodology)) "distinctiveness" = Some NaN /\
     score (criteriaScores (validateCodebook codebook methodology)) "examples" = Some NaN /\
     overallQuality (validateCodebook codebook methodology) = NaN /\
     passesQualityThreshold (validateCodebook codebook methodology) = false) /\
  (forall totalDataPoints,
     score (criteriaScores (validateThemes [] totalDataPoints)) "coherence" = Some NaN /\
     score (criteriaScores (validateThemes [] totalDataPoints)) "dataSupport" = Some NaN /\
     score (criteriaScores (validateThemes [] totalDataPoints)) "relevance" = Some NaN /\
     score (criteriaScores (validateThemes [] totalDataPoints)) "prevalence" = Some NaN /\
     overallQuality (validateThemes [] totalDataPoints) = NaN /\
     passesQualityThreshold (validateThemes [] totalDataPoints) = false).
Proof.
  split.
  - intros codebook methodology Hcodes.
    unfold validateCodebook. rewrite Hcodes.
    cbn [criteriaScores overallQuality passesQualityThreshold].
    assert (Hdiv : div (of_nat 0) (of_nat 0) = NaN) by (by vm_compute).
    change (length (@nil Code)) with 0.
    change (List.filter _ (@nil Code)) with (@nil Code).
    change (length (@nil Code)) with 0.
    change ((fun c => toLowerCase (label c)) <$> (@nil Code)) with (@nil string).
    change (size (list_to_set (@nil string) : gset string)) with (size (∅ : gset string)).
    rewrite size_empty, Hdiv.
    assert (Hmean : forall a b,
               mean [("clarity", NaN); ("distinctiveness", NaN); ("completeness", a);
                     ("hierarchy", b); ("examples", NaN)] = NaN).
    { intros a b. unfold mean. cbn [fmap list_fmap snd fold_left].
      by rewrite add_NaN_r. }
    rewrite Hmean. repeat split; by vm_compute.
  - intros totalDataPoints. unfold validateThemes.
    cbn [criteriaScores overallQuality passesQualityThreshold].
    change (length (@nil Theme)) with 0.
    change (List.filter _ (@nil Theme)) with (@nil Theme).
    change (length (@nil Theme)) with 0.
    cbn [fold_left].
    assert (Hdiv : div (of_nat 0) (of_nat 0) = NaN) by (by vm_compute).
    rewrite Hdiv.
    assert (Hsupport : Math_min (of_nat 1) (div NaN (of_nat 5)) = NaN) by (by vm_compute).
    rewrite Hsupport.
    assert (Hmean : forall a b,
               mean [("coherence", NaN); ("distinctiveness", a); ("dataSupport", NaN);
                     ("relevance", NaN); ("prevalence", NaN); ("coverage", b)] = NaN).
    { intros a b. unfold mean. cbn [fmap list_fmap snd fold_left].
      repeat (rewrite add_NaN_r || rewrite add_NaN_l). by vm_compute. }
    rewrite Hmean. repeat split; by vm_compute.
Qed.

Lemma empty_input_returns_NaN_scores_witness :
  overallQuality (validateCodebook Examples.empty_codebook None) = NaN /\
  passesQualityThreshold (validateCodebook Examples.empty_codebook None) = false.
Proof.
  destruct (proj1 empty_input_returns_NaN_scores Examples.empty_codebook None)
    as (_ & _ & _ & Hoverall & Hpasses); [reflexivity|].
  by split.
Defined.

End ValidatorProperties.

Section SaturationProperties.
Import JS Types ExtractThemes Spec.

(** ** The saturation heuristic *)

Lemma Q2Qc_inject_Z_le (a b : Z) :
  (Q2Qc (inject_Z a) <= Q2Qc (inject_Z b))%Qc <-> (a <= b)%Z.
Proof.
  unfold Qcle. simpl. rewrite !Qred_correct. by rewrite <- Zle_Qle.
Qed.

Lemma Math_min_of_Z (a b : Z) : Math_min (of_Z a) (of_Z b) = of_Z (Z.min a b).
Proof.
  unfold Math_min, of_Z, leb, Qc_leb.
  case_bool_decide as Hle; rewrite Q2Qc_inject_Z_le in Hle.
  - by rewrite Z.min_l.
  - rewrite Z.min_r; [done|lia].
Qed.

Lemma floor_three_tenths (n : nat) :
  Math_floor (mul (of_nat n) (decimal 3 10)) = of_Z (3 * Z.of_nat n / 10).
Proof.
  unfold Math_floor, mul, of_nat, of_Z, decimal. do 2 f_equal.
  unfold Qcmult. simpl this.
  rewrite !Qred_correct.
  unfold Qmult, inject_Z, Qfloor. simpl Qnum. simpl Qden.
  by rewrite (Z.mul_comm 3).
Qed.

(** The threshold the code computes is [min(3, floor(n × 0.3))]. *)
Lemma threshold_value (n : nat) :
  Math_min (of_nat 3) (Math_floor (mul (of_nat n) (decimal 3 10)))
  = of_Z (participant_threshold n).
Proof.
  rewrite floor_three_tenths. change (of_nat 3) with (of_Z 3).
  apply Math_min_of_Z.
Qed.

(** C7.  The saturation flag is true exactly when there are at least
    three themes, every theme has at least three supporting quotes, and
    every theme's [participants] is at least
    [min(3, floor(total × 0.3))], where [total] is the number of data
    sources, stored as the [totalParticipants] of every theme; a list of
    two themes is never saturated. *)
Theorem saturation_iff themes (total : nat) :
  (saturation themes total = true <->
     3 <= length themes /\
     (forall t, t ∈ themes -> 3 <= length (supportingQuotes t)) /\
     (forall t, t ∈ themes ->
        geb (participants (prevalence t)) (of_Z (participant_threshold total)) = true)) /\
  ((forall t, t ∈ themes -> totalParticipants (prevalence t) = of_nat total) ->
   (saturation themes total = true <->
      3 <= length themes /\
      (forall t, t ∈ themes -> 3 <= length (supportingQuotes t)) /\
      (forall t, t ∈ themes ->
         geb (participants (prevalence t))
             (Math_min (of_nat 3)
                (Math_floor (mul (totalParticipants (prevalence t)) (decimal 3 10))))
         = true))) /\
  (length themes = 2 -> saturation themes total = false).
Proof.
  assert (Hiff : saturation themes total = true <->
     3 <= length themes /\
     (forall t, t ∈ themes -> 3 <= length (supportingQuotes t)) /\
     (forall t, t ∈ themes ->
        geb (participants (prevalence t)) (of_Z (participant_threshold total)) = true)).
  { unfold saturation, every. rewrite !andb_true_iff, !forallb_forall, Nat.leb_le.
    rewrite threshold_value.
    split.
    - intros [[Hlen Hquotes] Hpart]. split; [done|]. split.
      + intros t Ht. apply Nat.leb_le, Hquotes. by apply list_elem_of_In.
      + intros t Ht. apply Hpart. by apply list_elem_of_In.
    - intros (Hlen & Hquotes & Hpart). split; [split; [done|]|].
      + intros t Ht. apply Nat.leb_le, Hquotes. by apply list_elem_of_In.
      + intros t Ht. apply Hpart. by apply list_elem_of_In. }
  split; [exact Hiff|]. split.
  - intros Htotal. rewrite Hiff. split.
    + intros (Hlen & Hquotes & Hpart). split; [done|]. split; [done|].
      intros t Ht. rewrite (Htotal t Ht), threshold_value. by apply Hpart.
    + intros (Hlen & Hquotes & Hpart). split; [done|]. split; [done|].
      intros t Ht. specialize (Hpart t Ht).
      by rewrite (Htotal t Ht), threshold_value in Hpart.
  - intros Hlen. unfold saturation. rewrite Hlen. reflexivity.
Qed.

Lemma saturation_iff_witness :
  saturation [Examples.well_supported_theme "001"; Examples.well_supported_theme "002"] 10
    = false /\
  (saturation [Examples.well_supported_theme "001"; Examples.well_supported_theme "002";
               Examples.well_supported_theme "003"] 10 = true <->
   3 <= 3 /\
   (forall t, t ∈ [Examples.well_supported_theme "001"; Examples.well_supported_theme "002";
                  Examples.well_supported_theme "003"] ->
      3 <= length (supportingQuotes t)) /\
   (forall t, t ∈ [Examples.well_supported_theme "001"; Examples.well_supported_theme "002";
                  Examples.well_supported_theme "003"] ->
      geb (participants (prevalence t))
          (Math_min (of_nat 3)
             (Math_floor (mul (totalParticipants (prevalence t)) (decimal 3 10))))
      = true)).
Proof.
  split.
  - apply (saturation_iff
             [Examples.well_supported_theme "001"; Examples.well_supported_theme "002"] 10).
    reflexivity.
  - apply (saturation_iff
             [Examples.well_supported_theme "001"; Examples.well_supported_theme "002";
              Examples.well_supported_theme "003"] 10).
    intros t Ht. repeat (apply elem_of_cons in Ht as [->|Ht]; [reflexivity|]).
    by apply elem_of_nil in Ht.
Defined.

End SaturationProperties.

(** * Further properties of the code *)

Section TheoryEngineFurther.
Import JS TheoryEngine Invariants.

(** ** [identifyCoreCategory] *)

Lemma most_prevalent_position t ts :
  exists i,
    (t :: ts) !! i = Some (Spec.most_prevalent t ts) /\
    forall j x, j < i -> (t :: ts) !! j = Some x ->
      (prevalence x < prevalence (Spec.most_prevalent t ts))%Qc.
Proof.
  revert t. induction ts as [|u ts IH]; intros t.
  - exists 0. split; [done|]. intros j x Hj. lia.
  - cbn [Spec.most_prevalent]. unfold Qc_ltb. case_bool_decide as Hlt.
    + destruct (IH u) as (i & Hi & Hbefore). exists (S i). split; [done|].
      intros [|j] x Hj Hx.
      * injection Hx as <-.
        eapply Qclt_le_trans; [exact Hlt | apply most_prevalent_ge].
      * apply (Hbefore j); [lia|done].
    + apply Qcnot_lt_le in Hlt.
      destruct (IH t) as ([|i] & Hi & Hbefore).
      * exists 0. split; [done|]. intros j x Hj. lia.
      * exists (S (S i)). split; [done|].
        assert (Ht : (prevalence t < prevalence (Spec.most_prevalent t ts))%Qc)
          by (apply (Hbefore 0); [lia|done]).
        intros [|[|j]] x Hj Hx.
        -- by injection Hx as <-.
        -- injection Hx as <-. eapply Qcle_lt_trans; [exact Hlt | exact Ht].
        -- apply (Hbefore (S j)); [lia|done].
Qed.

(** X1.  On a non-empty list [identifyCoreCategory] returns one of the
    themes of the list; no theme has a greater prevalence, and every
    theme before it in the list has a strictly smaller one. *)
Theorem identifyCoreCategory_first_maximum t ts :
  exists i,
    (t :: ts) !! i = Some (identifyCoreCategory (t :: ts)) /\
    (forall x, x ∈ t :: ts ->
       (prevalence x <= prevalence (identifyCoreCategory (t :: ts)))%Qc) /\
    (forall j x, j < i -> (t :: ts) !! j = Some x ->
       (prevalence x < prevalence (identifyCoreCategory (t :: ts)))%Qc).
Proof.
  rewrite identifyCoreCategory_most_prevalent.
  destruct (most_prevalent_position t ts) as (i & Hi & Hbefore).
  exists i. split; [done|]. split; [|done].
  intros x Hx. apply elem_of_cons in Hx as [->|Hx].
  - apply most_prevalent_ge.
  - by apply most_prevalent_upper.
Qed.

(** ** [buildGroundedTheory] *)

(** X2.  The title is always "Theory of " followed by the core
    category.  When no later theme is more prevalent than the first
    one, the core category is the first theme and the phenomenon of the
    paradigm model names the same theme. *)
Theorem buildGroundedTheory_core_category codes t ts researchQuestion paradigm_opt now :
  title (buildGroundedTheory codes (t :: ts) researchQuestion paradigm_opt now)
    = "Theory of " +:+
      coreCategory (buildGroundedTheory codes (t :: ts) researchQuestion paradigm_opt now) /\
  ((forall x, x ∈ ts -> (prevalence x <= prevalence t)%Qc) ->
   coreCategory (buildGroundedTheory codes (t :: ts) researchQuestion paradigm_opt now)
     = name t /\
   phenomenon (paradigmModel
                 (buildGroundedTheory codes (t :: ts) researchQuestion paradigm_opt now))
     = coreCategory (buildGroundedTheory codes (t :: ts) researchQuestion paradigm_opt now)).
Proof.
  unfold buildGroundedTheory. cbn [title coreCategory paradigmModel].
  split; [done|]. intros Hfirst.
  rewrite identifyCoreCategory_most_prevalent, (most_prevalent_keep t ts Hfirst).
  by rewrite buildParadigmModel_phenomenon.
Qed.

Lemma buildGroundedTheory_core_category_witness :
  coreCategory (buildGroundedTheory [] [Examples.major_theme; Examples.minor_theme]
                  "How do workers adapt?" None 0) = "Major theme" /\
  phenomenon (paradigmModel
                (buildGroundedTheory [] [Examples.major_theme; Examples.minor_theme]
                   "How do workers adapt?" None 0))
    = coreCategory (buildGroundedTheory [] [Examples.major_theme; Examples.minor_theme]
                      "How do workers adapt?" None 0).
Proof.
  apply (proj2 (buildGroundedTheory_core_category [] Examples.major_theme
                  [Examples.minor_theme] "How do workers adapt?" None 0)).
  intros x Hx. apply list_elem_of_singleton in Hx as ->. by vm_compute.
Defined.

(** ** [inferRelationship] and [mapCategoryRelationships] *)

Lemma inferRelationship_type_cases A B r :
  inferRelationship A B = Some r ->
  inf_type r = triggers \/ inf_type r = causes \/ inf_type r = influences.
Proof.
  unfold inferRelationship.
  repeat match goal with |- context [if ?c then _ else _] => destruct c end;
    intros Hr; simplify_eq; simpl; auto.
Qed.

(** X3.  Every relationship the engine emits has type triggers, causes
    or influences: precedes, enables and constrains are never produced. *)
Theorem mapCategoryRelationships_types themes r :
  r ∈ mapCategoryRelationships themes ->
  type r = triggers \/ type r = causes \/ type r = influences.
Proof.
  intros Hr. apply mapCategoryRelationships_elem in Hr
    as (i & j & A & B & inf & _ & _ & _ & Hinf & ->).
  by apply (inferRelationship_type_cases A B).
Qed.

Lemma mapCategoryRelationships_types_witness :
  type (relationship_of Examples.minor_theme Examples.major_theme
          {| inf_type := influences;
             inf_explanation :=
               dquote +:+ "Minor theme" +:+ dquote +:+ " influences " +:+
               dquote +:+ "Major theme" +:+ dquote +:+
               " through shared underlying processes";
             inf_strength := weak |}) = triggers \/
  type (relationship_of Examples.minor_theme Examples.major_theme
          {| inf_type := influences;
             inf_explanation :=
               dquote +:+ "Minor theme" +:+ dquote +:+ " influences " +:+
               dquote +:+ "Major theme" +:+ dquote +:+
               " through shared underlying processes";
             inf_strength := weak |}) = causes \/
  type (relationship_of Examples.minor_theme Examples.major_theme
          {| inf_type := influences;
             inf_explanation :=
               dquote +:+ "Minor theme" +:+ dquote +:+ " influences " +:+
               dquote +:+ "Major theme" +:+ dquote +:+
               " through shared underlying processes";
             inf_strength := weak |}) = influences.
Proof.
  apply (mapCategoryRelationships_types [Examples.minor_theme; Examples.major_theme]).
  rewrite inferRelationship_minor_major. left.
Defined.

(** X4.  Inference is symmetric in whether a relationship exists: one is
    inferred from [A] to [B] exactly when one is inferred from [B] to [A];
    and when neither list of supporting codes repeats an entry, both
    directions carry the same strength. *)
Theorem inferRelationship_symmetric A B :
  (is_Some (inferRelationship A B) <-> is_Some (inferRelationship B A)) /\
  (NoDup (supportingCodes A) -> NoDup (supportingCodes B) ->
   inf_strength <$> inferRelationship A B = inf_strength <$> inferRelationship B A).
Proof.
  split.
  - rewrite !inferRelationship_is_Some. split; intros (c & ? & ?); by exists c.
  - intros HA HB. rewrite !inferRelationship_strength.
    rewrite (sharedCodes_length_distinct A B HA), (sharedCodes_length_distinct B A HB).
    f_equal. f_equal. apply set_eq. intros x. rewrite !elem_of_intersection. tauto.
Qed.

Lemma inferRelationship_symmetric_witness :
  inf_strength <$> inferRelationship Examples.minor_theme Examples.major_theme
  = inf_strength <$> inferRelationship Examples.major_theme Examples.minor_theme.
Proof.
  apply (proj2 (inferRelationship_symmetric Examples.minor_theme Examples.major_theme));
    apply (bool_decide_unpack _); vm_compute; exact I.
Defined.

Lemma omap_length_le {A B : Type} (g : A -> option B) l : length (omap g l) <= length l.
Proof.
  induction l as [|a l IH]; [done|].
  change (omap g (a :: l)) with (match g a with Some y => y :: omap g l | None => omap g l end).
  destruct (g a); simpl; lia.
Qed.

Lemma omap_length_lt {A B : Type} (g : A -> option B) l x :
  x ∈ l -> g x = None -> length (omap g l) < length l.
Proof.
  intros Hx Hg. induction l as [|a l IH]; [by apply elem_of_nil in Hx|].
  change (omap g (a :: l)) with (match g a with Some y => y :: omap g l | None => omap g l end).
  apply elem_of_cons in Hx as [<-|Hx].
  - rewrite Hg. pose proof (omap_length_le g l). simpl. lia.
  - specialize (IH Hx). destruct (g a); simpl; lia.
Qed.

Lemma bind_length_le {A B : Type} (f : A -> list B) l k :
  (forall x, x ∈ l -> length (f x) <= k) -> length (l ≫= f) <= length l * k.
Proof.
  induction l as [|a l IH]; intros Hall; [done|].
  rewrite bind_cons, length_app. cbn [length].
  assert (length (f a) <= k) by (apply Hall; by left).
  assert (length (l ≫= f) <= length l * k) by (apply IH; intros x Hx; apply Hall; by right).
  lia.
Qed.

(** X5.  For [n] themes at most [n (n - 1)] relationships are emitted; in
    particular none for a single theme. *)
Theorem mapCategoryRelationships_count themes :
  length (mapCategoryRelationships themes) <= length themes * (length themes - 1).
Proof.
  unfold mapCategoryRelationships.
  set (indexed := imap (fun i t => (i, t)) themes).
  assert (Hlen : length indexed = length themes) by apply length_imap.
  rewrite <- Hlen. apply bind_length_le. intros [i A] HiA.
  assert (length (omap (fun '(j, theme2) =>
                 if bool_decide (i = j) then None
                 else relationship_of A theme2 <$> inferRelationship A theme2) indexed)
          < length indexed); [|lia].
  apply (omap_length_lt _ indexed (i, A)); [done|].
  by rewrite bool_decide_eq_true_2.
Qed.

(** ** [generatePropositions] *)

Lemma string_truthy_append_r a b :
  string_truthy b = true -> string_truthy (a +:+ b) = true.
Proof. by destruct a. Qed.

Lemma proposition_of_truthy rel : string_truthy (proposition_of rel) = true.
Proof. unfold proposition_of. destruct (type rel); by apply string_truthy_append_r. Qed.

Lemma fold_left_push_truthy {A : Type} (p : A -> string) l acc :
  (forall x, string_truthy (p x) = true) ->
  fold_left (fun props x =>
               let proposition := p x in
               if string_truthy proposition then push props proposition else props)
            l acc
  = acc ++ (p <$> l).
Proof.
  intros Hp. revert acc. induction l as [|x l IH]; intros acc; simpl.
  - by rewrite app_nil_r.
  - rewrite Hp, IH. unfold push. by rewrite <- app_assoc.
Qed.

Lemma fold_left_push {A : Type} (p : A -> string) l acc :
  fold_left (fun props x => push props (p x)) l acc = acc ++ (p <$> l).
Proof.
  revert acc. induction l as [|x l IH]; intros acc; simpl.
  - by rewrite app_nil_r.
  - rewrite IH. unfold push. by rewrite <- app_assoc.
Qed.

(** X6.  [generatePropositions] never returns an empty list and never
    more than eight propositions.  It returns one proposition for each
    of the first five strong relationships followed by one for each of
    the first three themes of prevalence above 0.5; only when there is
    neither does it return the three generic propositions. *)
Theorem generatePropositions_shape themes relationships :
  1 <= length (generatePropositions themes relationships) <= 8 /\
  (List.filter (fun r => bool_decide (strength r = strong)) relationships = [] ->
   List.filter (fun t => gtb (Fin (prevalence t)) (decimal 5 10)) themes = [] ->
   generatePropositions themes relationships =
   [ "The identified themes represent interconnected processes in participants' experiences";
     "Context and individual factors mediate how these processes manifest";
     "The overall process is dynamic and evolves over time" ]) /\
  (0 < length (List.filter (fun r => bool_decide (strength r = strong)) relationships)
       + length (List.filter (fun t => gtb (Fin (prevalence t)) (decimal 5 10)) themes) ->
   generatePropositions themes relationships =
   (proposition_of <$>
      take 5 (List.filter (fun r => bool_decide (strength r = strong)) relationships)) ++
   ((fun t => name t +:+
       " is a central process that appears across most participant experiences") <$>
      take 3 (List.filter (fun t => gtb (Fin (prevalence t)) (decimal 5 10)) themes))).
Proof.
  unfold generatePropositions.
  rewrite (fold_left_push_truthy proposition_of _ [] proposition_of_truthy).
  rewrite (fold_left_push
             (fun t => name t +:+
                " is a central process that appears across most participant experiences")).
  set (strongs := List.filter _ relationships).
  set (prevalents := List.filter _ themes).
  cbn [app].
  set (props := (proposition_of <$> take 5 strongs) ++ _).
  assert (Hlen : length props = length strongs `min` 5 + length prevalents `min` 3).
  { unfold props. rewrite length_app, !length_fmap, !length_take. lia. }
  split; [|split].
  - destruct (length props =? 0)%nat eqn:Hzero.
    + apply Nat.eqb_eq in Hzero. rewrite length_app, Hzero. simpl. lia.
    + apply Nat.eqb_neq in Hzero. lia.
  - intros Hs Hp. rewrite Hs, Hp in Hlen. simpl in Hlen.
    apply nil_length_inv in Hlen. by rewrite Hlen.
  - intros Hpos. destruct (length props =? 0)%nat eqn:Hzero; [|done].
    apply Nat.eqb_eq in Hzero. lia.
Qed.

Lemma generatePropositions_shape_witness :
  generatePropositions [Examples.major_theme] [] =
  [ "Major theme is a central process that appears across most participant experiences" ].
Proof.
  destruct (generatePropositions_shape [Examples.major_theme] []) as (_ & _ & Hsome).
  apply Hsome. vm_compute. lia.
Defined.

(** ** [formatList] and [generateStoryline] *)

Lemma lower_char_idemp c : lower_char (lower_char c) = lower_char c.
Proof. destruct c as [[] [] [] [] [] [] [] []]; reflexivity. Qed.

Lemma toLowerCase_idemp s : toLowerCase (toLowerCase s) = toLowerCase s.
Proof. induction s as [|c s IH]; simpl; [done|]. f_equal; [apply lower_char_idemp|done]. Qed.

Lemma toLowerCase_app a b : toLowerCase (a +:+ b) = toLowerCase a +:+ toLowerCase b.
Proof.
  induction a as [|c a IH]; [done|].
  change (String (lower_char c) (toLowerCase (a +:+ b))
          = String (lower_char c) (toLowerCase a +:+ toLowerCase b)).
  by f_equal.
Qed.

Lemma toLowerCase_join sep l :
  toLowerCase (join sep (toLowerCase <$> l)) = join (toLowerCase sep) (toLowerCase <$> l).
Proof.
  induction l as [|x [|y l] IH].
  - done.
  - simpl. apply toLowerCase_idemp.
  - change (toLowerCase <$> (x :: y :: l))
      with (toLowerCase x :: (toLowerCase <$> (y :: l))).
    change (toLowerCase <$> (y :: l)) with (toLowerCase y :: (toLowerCase <$> l)) in *.
    cbn [join]. cbn [join] in IH.
    by rewrite !toLowerCase_app, toLowerCase_idemp, IH.
Qed.

(** X7.  Whatever the items, the text [formatList] returns contains no
    upper-case ASCII letter: lower-casing it again changes nothing. *)
Theorem formatList_is_lower_case items :
  toLowerCase (formatList items) = formatList items.
Proof.
  destruct items as [|a [|b [|c l]]].
  - done.
  - apply toLowerCase_idemp.
  - cbn [formatList]. by rewrite !toLowerCase_app, !toLowerCase_idemp.
  - set (items := a :: b :: c :: l).
    change (formatList items)
      with (join ", " (toLowerCase <$> take (length items - 1) items) +:+ ", and " +:+
            toLowerCase (default EmptyString (last items))).
    by rewrite !toLowerCase_app, toLowerCase_join, toLowerCase_idemp.
Qed.

(** X8.  Every storyline is the opening sentence naming the core
    category in lower case, then, for each paradigm list that is not
    empty and in the order causal conditions, context, strategies,
    intervening conditions, consequences, the sentence that reports the
    formatted list, then the closing paragraph giving the number of
    themes.  An empty list leaves no trace. *)
Theorem generateStoryline_frame coreCategory model themes :
  generateStoryline coreCategory model themes =
    "This grounded theory explains the process of " +:+
    toLowerCase (name coreCategory) +:+ ". " +:+
    sentences (storyline_parts model) +:+
    newline +:+ newline +:+ "The data reveals " +:+
    string_of_nat (length themes) +:+
    " interconnected themes that together explain how participants navigate " +:+
    toLowerCase (name coreCategory) +:+ ". " +:+
    "This theory demonstrates that the process is not linear but involves continuous interaction between individual actions, contextual factors, and evolving outcomes.".
Proof.
  unfold generateStoryline, storyline_parts. cbn [sentences].
  assert (Hsentence : forall items before after,
            sentence (items, before, after) =
            if nonempty items then before +:+ formatList items +:+ after else EmptyString).
  { by intros [|x items] before after. }
  rewrite !Hsentence.
  destruct (nonempty (causalConditions model)), (nonempty (context model)),
           (nonempty (strategies model)), (nonempty (interveningConditions model)),
           (nonempty (consequences model));
    rewrite ?string_app_assoc; reflexivity.
Qed.

Example generateStoryline_two_sentences :
  sentences (storyline_parts Examples.partial_model) =
  "This process is initiated by office closure and team dispersal. Participants engage in scheduling calls as responses to the phenomenon. ".
Proof. reflexivity. Qed.

End TheoryEngineFurther.

Section ConceptMapProperties.
Import JS TheoryEngine ConceptMap Invariants.

(** ** [generateConceptMap] *)










End ConceptMapProperties.

Section NumberFacts.
Import JS Invariants.

(** ** Facts about numbers *)

Lemma Q2Qc_inject_Z (z : Z) : Q2Qc (inject_Z z) = Qc_of_Z z.
Proof. apply Qc_is_canon. simpl. apply Qred_correct. Qed.

Lemma of_nat_Fin (n : nat) : of_nat n = Fin (Qc_of_Z (Z.of_nat n)).
Proof. unfold of_nat, of_Z. by rewrite Q2Qc_inject_Z. Qed.

Lemma unit_interval_spec a :
  unit_interval a = true <-> exists q, a = Fin q /\ (0 <= q)%Qc /\ (q <= 1)%Qc.
Proof.
  destruct a as [q| | |]; simpl; [|split; [done|intros (q & ? & _); done]..].
  unfold Qc_leb. rewrite andb_true_iff, !bool_decide_eq_true. split.
  - intros [? ?]. by exists q.
  - intros (q' & Heq & ? & ?). by injection Heq as ->.
Qed.

(** A quotient of a non-negative number by a positive one that is not
    smaller. *)
Lemma div_unit_interval (x y : Qc) :
  (0 <= x)%Qc -> (x <= y)%Qc -> (0 < y)%Qc -> unit_interval (div (Fin x) (Fin y)) = true.
Proof.
  intros Hx Hxy Hy. apply unit_interval_spec. unfold div, Qc_eqb.
  assert (Hne : y <> 0%Qc) by (intros ->; by apply (Qclt_not_eq _ _ Hy)).
  rewrite bool_decide_eq_false_2 by done.
  exists (x / y)%Qc. split; [done|]. unfold Qcdiv.
  pose proof (Qcinv_pos y Hy) as Hinv. split.
  - apply Qcmult_nonneg_nonneg; [done|by apply Qclt_le_weak].
  - rewrite <- (Qcmult_inv_r y Hne).
    apply Qcmult_le_mono_nonneg_r; [by apply Qclt_le_weak|done].
Qed.

Lemma ratio_unit_interval (n m : nat) :
  n <= m -> 0 < m -> unit_interval (div (of_nat n) (of_nat m)) = true.
Proof.
  intros Hnm Hm. rewrite !of_nat_Fin. apply div_unit_interval.
  - rewrite <- Z2Qc_inj_0. rewrite <- Z2Qc_inj_le. lia.
  - rewrite <- Z2Qc_inj_le. lia.
  - rewrite <- Z2Qc_inj_0. rewrite <- Z2Qc_inj_lt. lia.
Qed.

(** The sum of numbers between 0 and 1 lies between 0 and their count. *)
Lemma fold_add_unit_interval (l : list number) (acc : Qc) :
  Forall (fun a => unit_interval a = true) l ->
  exists s, fold_left (fun a b => add a b) l (Fin acc) = Fin (acc + s) /\
            (0 <= s)%Qc /\ (s <= Qc_of_Z (Z.of_nat (length l)))%Qc.
Proof.
  intros Hl. revert acc. induction Hl as [|a l Ha _ IH]; intros acc.
  - exists 0%Qc. simpl. rewrite Qcplus_0_r. split; [done|]. split; [apply Qcle_refl|].
    change (Z.of_nat 0) with 0%Z. rewrite Z2Qc_inj_0. apply Qcle_refl.
  - apply unit_interval_spec in Ha as (q & -> & Hq0 & Hq1).
    destruct (IH (acc + q)%Qc) as (s & Hs & Hs0 & Hs1).
    exists (q + s)%Qc. cbn [fold_left add]. rewrite Hs. split; [by rewrite Qcplus_assoc|].
    split; [by apply Qcplus_nonneg_nonneg|].
    replace (Z.of_nat (length (Fin q :: l))) with (1 + Z.of_nat (length l))%Z
      by (cbn [length]; lia).
    rewrite Z2Qc_inj_add, Z2Qc_inj_1. by apply Qcplus_le_compat.
Qed.

(** The mean of a non-empty record of scores between 0 and 1 is between
    0 and 1. *)
Lemma mean_unit_interval (scores : list (string * number)) :
  scores <> [] ->
  Forall (fun kv => unit_interval kv.2 = true) scores ->
  unit_interval (QualityValidation.mean scores) = true.
Proof.
  intros Hne Hall. unfold QualityValidation.mean.
  destruct (fold_add_unit_interval (snd <$> scores) 0%Qc) as (s & Hs & Hs0 & Hs1).
  { apply Forall_fmap. eapply Forall_impl; [exact Hall|]. by intros [k v]. }
  change (of_nat 0) with (Fin 0%Qc). rewrite Hs, Qcplus_0_l, of_nat_Fin.
  rewrite length_fmap in Hs1. apply div_unit_interval; [done..|].
  rewrite <- Z2Qc_inj_0, <- Z2Qc_inj_lt. destruct scores; [done|]. cbn [length]. lia.
Qed.

End NumberFacts.

Section ValidatorFurther.
Import JS Types QualityValidation Invariants.

(** ** [validateCodebook] *)

Lemma size_list_to_set_le (l : list string) :
  size (list_to_set l : gset string) <= length l.
Proof.
  apply submseteq_length, NoDup_submseteq; [apply NoDup_elements|].
  intros x Hx. by apply elem_of_elements, elem_of_list_to_set in Hx.
Qed.

Lemma size_list_to_set_NoDup (l : list string) :
  size (list_to_set l : gset string) = length l <-> NoDup l.
Proof.
  split; [|apply size_list_to_set].
  intros Hsize.
  assert (Hsub : elements (list_to_set l : gset string) ⊆+ l).
  { apply NoDup_submseteq; [apply NoDup_elements|].
    intros x Hx. by apply elem_of_elements, elem_of_list_to_set in Hx. }
  apply submseteq_length_Permutation in Hsub.
  - rewrite <- Hsub. apply NoDup_elements.
  - unfold size, set_size in Hsize. simpl in Hsize. lia.
Qed.

Ltac score_lookup :=
  cbn [score];
  repeat first [ rewrite bool_decide_eq_true_2 by reflexivity
               | rewrite bool_decide_eq_false_2 by discriminate ].

(** X11.  For a codebook with at least one code every criterion score
    of [validateCodebook] and the overall quality are finite numbers
    between 0 and 1. *)
Theorem validateCodebook_scores_in_unit_interval codebook methodology :
  codes codebook <> [] ->
  Forall (fun kv => unit_interval kv.2 = true)
         (criteriaScores (validateCodebook codebook methodology)) /\
  unit_interval (overallQuality (validateCodebook codebook methodology)) = true.
Proof.
  intros Hne.
  assert (Hlen : 0 < length (codes codebook)) by (destruct (codes codebook); [done|simpl; lia]).
  assert (Hscores : Forall (fun kv => unit_interval kv.2 = true)
                           (criteriaScores (validateCodebook codebook methodology))).
  { unfold validateCodebook. cbn [criteriaScores].
    repeat apply Forall_cons_2; [..|apply Forall_nil_2]; cbn [snd].
    - apply ratio_unit_interval; [apply filter_length_le|done].
    - apply ratio_unit_interval; [|done].
      etrans; [apply size_list_to_set_le|]. by rewrite length_fmap.
    - repeat match goal with |- context [if ?c then _ else _] => destruct c end;
        by vm_compute.
    - destruct (hierarchyDepth (qualityMetrics codebook)) as [q| | |];
        repeat match goal with |- context [if ?c then _ else _] => destruct c end;
        by vm_compute.
    - apply ratio_unit_interval; [apply filter_length_le|done]. }
  split; [exact Hscores|].
  change (overallQuality (validateCodebook codebook methodology))
    with (mean (criteriaScores (validateCodebook codebook methodology))).
  by apply mean_unit_interval.
Qed.

Lemma validateCodebook_scores_in_unit_interval_witness :
  unit_interval (overallQuality (validateCodebook Examples.single_code_codebook None)) = true.
Proof.
  apply (proj2 (validateCodebook_scores_in_unit_interval
                  Examples.single_code_codebook None ltac:(discriminate))).
Defined.

Lemma div_of_nat_one (n m : nat) :
  0 < m -> div (of_nat n) (of_nat m) = of_nat 1 <-> n = m.
Proof.
  intros Hm. rewrite !of_nat_Fin. unfold div, Qc_eqb.
  assert (Hne : Qc_of_Z (Z.of_nat m) <> 0%Qc).
  { rewrite <- Z2Qc_inj_0. intros Heq. apply Z2Qc_inj in Heq. lia. }
  rewrite bool_decide_eq_false_2 by done. split.
  - intros Heq.
    assert (Heq' : (Qc_of_Z (Z.of_nat n) / Qc_of_Z (Z.of_nat m))%Qc = Qc_of_Z (Z.of_nat 1))
      by congruence.
    assert (Hprod : (Qc_of_Z (Z.of_nat m) * (Qc_of_Z (Z.of_nat n) / Qc_of_Z (Z.of_nat m))
                     = Qc_of_Z (Z.of_nat n))%Qc) by (by apply Qcmult_div_r).
    rewrite Heq' in Hprod.
    change (Z.of_nat 1) with 1%Z in Hprod.
    rewrite Z2Qc_inj_1, Qcmult_1_r in Hprod. apply Z2Qc_inj in Hprod. lia.
  - intros ->. f_equal. change (Z.of_nat 1) with 1%Z. rewrite Z2Qc_inj_1.
    unfold Qcdiv. by apply Qcmult_inv_r.
Qed.

(** X12.  For a codebook with at least one code, all labels made of
    ASCII characters, the distinctiveness score is 1 exactly when no two
    codes have the same label up to letter case.  The restriction to
    ASCII labels is where the lower-casing above is that of the source;
    letters outside ASCII are not folded here. *)
Theorem validateCodebook_distinctiveness_one codebook methodology :
  codes codebook <> [] ->
  Forall (fun c => is_ascii (label c) = true) (codes codebook) ->
  (score (criteriaScores (validateCodebook codebook methodology)) "distinctiveness"
     = Some (of_nat 1) <->
   NoDup ((fun c => toLowerCase (label c)) <$> codes codebook)).
Proof.
  intros Hne _.
  assert (Hlen : 0 < length (codes codebook)) by (destruct (codes codebook); [done|simpl; lia]).
  unfold validateCodebook. cbn [criteriaScores]. score_lookup.
  split.
  - intros Heq. apply (inj Some) in Heq. apply (div_of_nat_one _ _ Hlen) in Heq.
    apply size_list_to_set_NoDup. by rewrite length_fmap.
  - intros Hnodup. f_equal. apply (div_of_nat_one _ _ Hlen).
    apply size_list_to_set_NoDup in Hnodup. by rewrite length_fmap in Hnodup.
Qed.

Lemma validateCodebook_distinctiveness_one_witness :
  score (criteriaScores (validateCodebook Examples.two_code_codebook None))
        "distinctiveness" = Some (of_nat 1) <->
  NoDup ((fun c => toLowerCase (label c)) <$> codes Examples.two_code_codebook).
Proof.
  apply (validateCodebook_distinctiveness_one Examples.two_code_codebook None
           ltac:(discriminate)).
  repeat constructor.
Defined.

(** ** [calculateThemeOverlap] and [validateThemes] *)

Lemma of_nat_3_nonzero : Qc_of_Z (Z.of_nat 3) <> 0%Qc.
Proof. rewrite <- Z2Qc_inj_0. intros Heq. by apply Z2Qc_inj in Heq. Qed.

Lemma calculateThemeOverlap_nonneg themes :
  exists q, calculateThemeOverlap themes = Fin q /\ (0 <= q)%Qc.
Proof.
  unfold calculateThemeOverlap.
  destruct (length themes <? 2)%nat; [by exists (Q2Qc (inject_Z 0))|].
  destruct (0 <? length (overlaps_from themes))%nat eqn:Hpos;
    [|by exists (Q2Qc (inject_Z 0))].
  apply Nat.ltb_lt in Hpos. rewrite !of_nat_Fin. unfold div, Qc_eqb.
  assert (Hc : (0 < Qc_of_Z (Z.of_nat (length (overlaps_from themes))))%Qc).
  { rewrite <- Z2Qc_inj_0, <- Z2Qc_inj_lt. lia. }
  rewrite bool_decide_eq_false_2 by (intros Heq; rewrite Heq in Hc; by apply Qclt_not_eq in Hc).
  eexists. split; [done|]. unfold Qcdiv. apply Qcmult_nonneg_nonneg.
  - rewrite <- Z2Qc_inj_0, <- Z2Qc_inj_le. lia.
  - by apply Qclt_le_weak, Qcinv_pos.
Qed.

Lemma distinctiveness_unit_interval (q : Qc) :
  (0 <= q)%Qc ->
  unit_interval (Math_max (of_nat 0) (sub (of_nat 1) (div (Fin q) (of_nat 3)))) = true.
Proof.
  intros Hq. rewrite !of_nat_Fin. unfold div, Qc_eqb.
  rewrite bool_decide_eq_false_2 by apply of_nat_3_nonzero.
  cbn [sub add neg Math_max leb]. unfold Qc_leb.
  change (Z.of_nat 0) with 0%Z. change (Z.of_nat 1) with 1%Z.
  rewrite Z2Qc_inj_0, Z2Qc_inj_1.
  case_bool_decide as Hle; apply unit_interval_spec; eexists; (split; [done|]).
  - split; [done|].
    rewrite <- (Qcplus_0_r 1) at 2. apply Qcplus_le_mono_l.
    rewrite <- (Qcopp_involutive 0). apply Qcopp_le_compat.
    change (- 0)%Qc with 0%Qc. unfold Qcdiv. apply Qcmult_nonneg_nonneg; [done|].
    apply Qclt_le_weak, Qcinv_pos. rewrite <- Z2Qc_inj_0, <- Z2Qc_inj_lt. lia.
  - split; [apply Qcle_refl|done].
Qed.

Lemma fold_left_add_zero (l : list nat) :
  Forall (fun n => n = 0) l -> fold_left Nat.add l 0 = 0.
Proof. induction 1 as [|n l -> _ IH]; simpl; [done|exact IH]. Qed.

Lemma overlaps_from_disjoint themes :
  (forall i j t u, i <> j -> themes !! i = Some t -> themes !! j = Some u ->
     forall c, c ∈ relatedCodes t -> c ∉ relatedCodes u) ->
  Forall (fun n => n = 0) (overlaps_from themes).
Proof.
  induction themes as [|t rest IH]; intros Hdisj; simpl; [done|].
  apply Forall_app. split.
  - apply Forall_fmap, Forall_forall. intros u Hu. simpl.
    apply list_elem_of_lookup in Hu as [j Hj].
    unfold overlap. apply size_empty_iff. apply elem_of_equiv_empty. intros c Hc.
    apply elem_of_intersection in Hc as [Hct Hcu].
    apply elem_of_list_to_set in Hct. apply elem_of_list_to_set in Hcu.
    by apply (Hdisj 0 (S j) t u ltac:(lia) eq_refl Hj c Hct).
  - apply IH. intros i j t' u Hij Hi Hj. apply (Hdisj (S i) (S j)); [lia|done..].
Qed.

(** X13.  The distinctiveness score of [validateThemes] is a finite
    number between 0 and 1 for every list of themes, the empty one
    included; it is 1 when no related code is shared between two themes. *)
Theorem validateThemes_distinctiveness themes totalDataPoints :
  exists d,
    score (criteriaScores (validateThemes themes totalDataPoints)) "distinctiveness" = Some d /\
    unit_interval d = true /\
    ((forall i j t u, i <> j -> themes !! i = Some t -> themes !! j = Some u ->
        forall c, c ∈ relatedCodes t -> c ∉ relatedCodes u) ->
     d = of_nat 1).
Proof.
  unfold validateThemes. cbn [criteriaScores]. score_lookup.
  eexists. split; [done|]. split.
  - destruct (calculateThemeOverlap_nonneg themes) as (q & -> & Hq).
    by apply distinctiveness_unit_interval.
  - intros Hdisj.
    assert (Hzero : calculateThemeOverlap themes = of_nat 0).
    { unfold calculateThemeOverlap. destruct (length themes <? 2)%nat; [done|].
      destruct (0 <? length (overlaps_from themes))%nat eqn:Hpos; [|done].
      apply Nat.ltb_lt in Hpos.
      rewrite (fold_left_add_zero _ (overlaps_from_disjoint themes Hdisj)).
      rewrite !of_nat_Fin. unfold div, Qc_eqb.
      rewrite bool_decide_eq_false_2.
      - f_equal. change (Z.of_nat 0) with 0%Z. rewrite Z2Qc_inj_0.
        unfold Qcdiv. apply Qcmult_0_l.
      - rewrite <- Z2Qc_inj_0. intros Heq. apply Z2Qc_inj in Heq. lia. }
    rewrite Hzero. vm_compute.
    first [reflexivity | apply (f_equal Fin), Qc_is_canon; reflexivity].
Qed.

Lemma validateThemes_distinctiveness_witness :
  exists d,
    score (criteriaScores
             (validateThemes [Examples.well_supported_theme "001"; Examples.thin_theme]
                             (of_nat 10)))
          "distinctiveness" = Some d /\
    d = of_nat 1.
Proof.
  destruct (validateThemes_distinctiveness
              [Examples.well_supported_theme "001"; Examples.thin_theme] (of_nat 10))
    as (d & Hd & _ & Hone).
  exists d. split; [exact Hd|]. apply Hone.
  intros [|[|i]] [|[|j]] t u Hij Hi Hj c Hc Hc'; try done.
  - injection Hi as <-. injection Hj as <-.
    apply list_elem_of_singleton in Hc as ->.
    by apply list_elem_of_singleton in Hc'.
  - injection Hi as <-. injection Hj as <-.
    apply list_elem_of_singleton in Hc as ->.
    by apply list_elem_of_singleton in Hc'.
Defined.

(** ** [validateGroundedTheory] *)

Ltac destruct_ifs :=
  repeat match goal with |- context [if ?c then _ else _] => destruct c end.

(** X14.  For every theory the four scores of [validateGroundedTheory]
    (credibility, originality, resonance, usefulness) and the overall
    quality are finite numbers between 0 and 1. *)
Theorem validateGroundedTheory_scores_in_unit_interval theory :
  Forall (fun kv => unit_interval kv.2 = true)
         (criteriaScores (validateGroundedTheory theory)) /\
  unit_interval (overallQuality (validateGroundedTheory theory)) = true.
Proof.
  assert (Hscores : Forall (fun kv => unit_interval kv.2 = true)
                           (criteriaScores (validateGroundedTheory theory))).
  { unfold validateGroundedTheory. cbn [criteriaScores].
    repeat apply Forall_cons_2; [..|apply Forall_nil_2]; cbn [snd];
      destruct_ifs; by vm_compute. }
  split; [exact Hscores|].
  change (overallQuality (validateGroundedTheory theory))
    with (mean (criteriaScores (validateGroundedTheory theory))).
  by apply mean_unit_interval.
Qed.

(** X15.  A theory whose categories are not saturated never earns the
    strength "Strong evidence of systematic analysis": its credibility
    is at most 0.7, and both "Theory needs more systematic development"
    and "Theoretical saturation not achieved" are among its weaknesses. *)
Theorem unsaturated_theory_lacks_credibility theory :
  categoriesSaturated (saturationEvidence theory) = false ->
  (exists c, score (criteriaScores (validateGroundedTheory theory)) "credibility" = Some c /\
             leb c (decimal 7 10) = true) /\
  ("Strong evidence of systematic analysis" ∉ strengths (validateGroundedTheory theory)) /\
  ("Theory needs more systematic development" ∈ weaknesses (validateGroundedTheory theory)) /\
  ("Theoretical saturation not achieved" ∈ weaknesses (validateGroundedTheory theory)).
Proof.
  intros Hsat. unfold validateGroundedTheory. rewrite Hsat.
  cbn [criteriaScores strengths weaknesses negb]. score_lookup.
  match goal with
  | |- context [geb ?c (decimal 8 10)] =>
      assert (Hcred : leb c (decimal 7 10) = true /\ geb c (decimal 8 10) = false)
        by (destruct_ifs; by vm_compute)
  end.
  destruct Hcred as [Hle Hgeb]. rewrite Hgeb.
  split; [by eexists|].
  repeat match goal with
         | |- context [if geb ?x (decimal 7 10) then _ else _] =>
             destruct (geb x (decimal 7 10))
         end;
    cbn [n_strengths n_weaknesses strength_push weakness_push recommendation_push
         no_notes app];
    (split; [|split]);
    rewrite ?elem_of_cons, ?elem_of_nil; try tauto;
    intros H; repeat destruct H as [H|H]; done.
Qed.

Lemma unsaturated_theory_lacks_credibility_witness :
  ("Strong evidence of systematic analysis"
     ∉ strengths (validateGroundedTheory Examples.bare_theory)) /\
  ("Theoretical saturation not achieved"
     ∈ weaknesses (validateGroundedTheory Examples.bare_theory)).
Proof.
  destruct (unsaturated_theory_lacks_credibility Examples.bare_theory eq_refl)
    as (_ & Hstrength & _ & Hweak).
  by split.
Defined.

(** ** [checkSaturation] *)

Lemma slice_last3_fmap {A B : Type} (f : A -> B) (l : list A) :
  slice_last3 (f <$> l) = f <$> slice_last3 l.
Proof. unfold slice_last3. by rewrite length_fmap, fmap_drop. Qed.

Lemma slice_last3_length {A : Type} (l : list A) :
  3 <= length l -> length (slice_last3 l) = 3.
Proof. intros Hl. unfold slice_last3. rewrite length_drop. lia. Qed.

Lemma slice_last3_idemp {A : Type} (l : list A) :
  slice_last3 (slice_last3 l) = slice_last3 l.
Proof.
  unfold slice_last3 at 1. rewrite (proj2 (Nat.sub_0_le _ _)); [done|].
  unfold slice_last3. rewrite length_drop. lia.
Qed.

Lemma fold_add_of_nat_nonneg (l : list nat) (acc : Qc) :
  (0 <= acc)%Qc ->
  exists q, fold_left (fun a b => add a (of_nat b)) l (Fin acc) = Fin q /\ (0 <= q)%Qc.
Proof.
  revert acc. induction l as [|n l IH]; intros acc Hacc; cbn [fold_left]; [by exists acc|].
  rewrite of_nat_Fin. cbn [add]. apply IH. apply Qcplus_nonneg_nonneg; [done|].
  rewrite <- Z2Qc_inj_0, <- Z2Qc_inj_le. lia.
Qed.

(** X16.  With fewer than three batches [checkSaturation] reports
    "not saturated" with confidence 0.  With three or more, the result
    depends on the batches only through the last three: the earlier ones
    can be dropped without changing it. *)
Theorem checkSaturation_last_three {A : Type} (codes : list A)
    (recentDataBatches : list (list BatchItem)) :
  (length recentDataBatches < 3 ->
   checkSaturation codes recentDataBatches =
   {| saturated := false;
      confidence := of_nat 0;
      evidence := "Insufficient data batches to assess saturation (need at least 3 batches)" |}) /\
  (3 <= length recentDataBatches ->
   checkSaturation codes recentDataBatches =
   checkSaturation codes (slice_last3 recentDataBatches)).
Proof.
  split.
  - intros Hlen. unfold checkSaturation.
    by rewrite (proj2 (Nat.ltb_lt _ _) Hlen).
  - intros Hlen. unfold checkSaturation.
    rewrite (slice_last3_length _ Hlen).
    rewrite (proj2 (Nat.ltb_ge _ _) Hlen). change (3 <? 3)%nat with false. cbv iota.
    by rewrite !slice_last3_fmap, slice_last3_idemp.
Qed.

Lemma checkSaturation_last_three_witness :
  checkSaturation [Examples.isolation_code]
    [[]; [{| item_code := Some "experiencing isolation"; item_label := None |}]; []; []]
  = checkSaturation [Examples.isolation_code]
      (slice_last3
         [[]; [{| item_code := Some "experiencing isolation"; item_label := None |}]; []; []]).
Proof.
  apply (proj2 (checkSaturation_last_three [Examples.isolation_code]
     [[]; [{| item_code := Some "experiencing isolation"; item_label := None |}]; []; []])).
  simpl. lia.
Defined.

Lemma rate_without_codes (l : list nat) :
  div (div (fold_left (fun a b => add a (of_nat b)) l (of_nat 0)) (of_nat 3)) (of_nat 0) = NaN \/
  div (div (fold_left (fun a b => add a (of_nat b)) l (of_nat 0)) (of_nat 3)) (of_nat 0) = PosInf.
Proof.
  destruct (fold_add_of_nat_nonneg l 0%Qc (Qcle_refl _)) as (q & Hq & Hq0).
  change (of_nat 0) with (Fin 0%Qc). rewrite Hq.
  rewrite (of_nat_Fin 3).
  assert (Hdiv : div (Fin q) (Fin (Qc_of_Z (Z.of_nat 3))) = Fin (q / Qc_of_Z (Z.of_nat 3))).
  { unfold div, Qc_eqb. by rewrite bool_decide_eq_false_2 by apply of_nat_3_nonzero. }
  rewrite Hdiv.
  assert (Hx : (0 <= q / Qc_of_Z (Z.of_nat 3))%Qc).
  { unfold Qcdiv. apply Qcmult_nonneg_nonneg; [done|].
    apply Qclt_le_weak, Qcinv_pos. rewrite <- Z2Qc_inj_0, <- Z2Qc_inj_lt. lia. }
  unfold div, Qc_eqb, Qc_ltb. rewrite (bool_decide_eq_true_2 (0%Qc = 0%Qc)) by done.
  case_bool_decide as Hzero; [by left|]. right.
  rewrite bool_decide_eq_true_2; [done|].
  apply Qcle_lt_or_eq in Hx as [Hx|Hx]; [done|]. by symmetry in Hx.
Qed.

(** X17.  [checkSaturation] never reports saturation when there are no
    codes, whatever the batches hold; and a result that reports
    saturation carries confidence 0.8 or 0.6. *)
Theorem checkSaturation_saturated {A : Type} (codes : list A)
    (recentDataBatches : list (list BatchItem)) :
  (codes = [] -> saturated (checkSaturation codes recentDataBatches) = false) /\
  (saturated (checkSaturation codes recentDataBatches) = true ->
   3 <= length recentDataBatches /\
   (confidence (checkSaturation codes recentDataBatches) = decimal 8 10 \/
    confidence (checkSaturation codes recentDataBatches) = decimal 6 10)).
Proof.
  split.
  - intros ->. unfold checkSaturation.
    destruct (length recentDataBatches <? 3)%nat; [done|].
    change (of_nat (length (@nil A))) with (of_nat 0).
    match goal with
    | |- context [ltb ?r (decimal 1 10)] =>
        assert (Hrate : ltb r (decimal 1 10) = false /\ ltb r (decimal 2 10) = false)
    end.
    { match goal with
      | |- context [fold_left ?f ?l (of_nat 0)] =>
          destruct (rate_without_codes l) as [-> | ->]
      end; by split. }
    destruct Hrate as [-> ->]. done.
  - unfold checkSaturation.
    destruct (length recentDataBatches <? 3)%nat eqn:Hlen; [done|].
    apply Nat.ltb_ge in Hlen.
    destruct_ifs; cbn [saturated confidence]; intros Hsat; (split; [done|]); auto; done.
Qed.

Lemma checkSaturation_saturated_witness :
  saturated (checkSaturation (@nil Types.Code) [[]; []; []]) = false.
Proof.
  apply (proj1 (checkSaturation_saturated (@nil Types.Code) [[]; []; []])).
  reflexivity.
Defined.

End ValidatorFurther.

Section ToolFurther.
Import JS Types BuildGroundedTheoryTool.

(** ** [buildGroundedTheory] (tool): saturation evidence and next steps *)

Lemma forallb_filter_complement {A B : Type} (f g : A -> bool) (h : A -> B) l :
  (forall x, g x = negb (f x)) ->
  forallb f l = true <-> h <$> List.filter g l = [].
Proof.
  intros Hneg. induction l as [|x l IH]; simpl; [done|].
  rewrite Hneg. destruct (f x); simpl; [exact IH|done].
Qed.

Lemma filter_complement_Permutation {A B : Type} (f g : A -> bool) (h : A -> B) l :
  (forall x, g x = negb (f x)) ->
  (h <$> List.filter f l) ++ (h <$> List.filter g l) ≡ₚ h <$> l.
Proof.
  intros Hneg. induction l as [|x l IH]; simpl; [done|].
  rewrite Hneg. destruct (f x); simpl.
  - by rewrite IH.
  - by rewrite <- Permutation_middle, IH.
Qed.

(** X18.  The saturation evidence splits the themes in two: the
    saturated and the unsaturated categories together are a
    rearrangement of the theme names.  [categoriesSaturated] holds
    exactly when there are at least three themes and none is
    unsaturated; with fewer than three themes it never holds. *)
Theorem assessSaturation_partition themes categoryCount :
  saturatedCategories (assessSaturation themes categoryCount) ++
    unsaturatedCategories (assessSaturation themes categoryCount) ≡ₚ name <$> themes /\
  (categoriesSaturated (assessSaturation themes categoryCount) = true <->
   3 <= length themes /\ unsaturatedCategories (assessSaturation themes categoryCount) = []) /\
  (length themes < 3 -> categoriesSaturated (assessSaturation themes categoryCount) = false).
Proof.
  unfold assessSaturation. cbn [saturatedCategories unsaturatedCategories categoriesSaturated].
  assert (Hneg : forall t : Theme,
             (length (supportingQuotes t) <? 5)%nat
             = negb (5 <=? length (supportingQuotes t))%nat)
    by (intros t; apply Nat.ltb_antisym).
  split; [|split].
  - by apply filter_complement_Permutation.
  - rewrite andb_true_iff, Nat.leb_le.
    by rewrite (forallb_filter_complement _ _ name themes Hneg).
  - intros Hlen. by rewrite (proj2 (Nat.leb_gt _ _) Hlen).
Qed.

Lemma assessSaturation_partition_witness :
  categoriesSaturated
    (assessSaturation [Examples.well_supported_theme "001"; Examples.well_supported_theme "002"]
       0) = false.
Proof.
  apply (assessSaturation_partition
           [Examples.well_supported_theme "001"; Examples.well_supported_theme "002"] 0).
  simpl. lia.
Defined.

(** X19.  The next steps always end with the three closing steps.  When
    some category is unsaturated they begin with "Continue data
    collection ..." followed by the step listing the unsaturated
    categories; when the categories are saturated, a linked theory is
    given and there are at least three relationships, the three closing
    steps are all there is. *)
Theorem nextSteps_of_assessment themes categoryCount integration relationships :
  (exists front,
     nextSteps (assessSaturation themes categoryCount) integration relationships =
     front ++ [ "Validate theory with participants (member checking)";
                "Test theory with new data or different contexts";
                "Write up theory for publication" ] /\ length front <= 4) /\
  (unsaturatedCategories (assessSaturation themes categoryCount) <> [] ->
   exists rest,
     nextSteps (assessSaturation themes categoryCount) integration relationships =
     "Continue data collection to achieve theoretical saturation" ::
     ("Further develop these categories: " +:+
        join ", " (unsaturatedCategories (assessSaturation themes categoryCount))) :: rest) /\
  (categoriesSaturated (assessSaturation themes categoryCount) = true ->
   linkedTheories integration <> [] -> 3 <= length relationships ->
   nextSteps (assessSaturation themes categoryCount) integration relationships =
   [ "Validate theory with participants (member checking)";
     "Test theory with new data or different contexts";
     "Write up theory for publication" ]).
Proof.
  destruct (assessSaturation_partition themes categoryCount) as (_ & Hsat & _).
  split; [|split].
  - unfold nextSteps. eexists. split; [by rewrite !app_assoc|].
    rewrite !length_app. repeat match goal with |- context [if ?c then _ else _] => destruct c end; simpl; lia.
  - intros Hunsat. unfold nextSteps.
    destruct (categoriesSaturated (assessSaturation themes categoryCount)) eqn:Hcat.
    { by destruct (proj1 Hsat eq_refl) as [_ ?]. }
    destruct (unsaturatedCategories (assessSaturation themes categoryCount)) as [|u us];
      [done|].
    by eexists.
  - intros Hcat Hlinked Hrels. unfold nextSteps. rewrite Hcat.
    apply Hsat in Hcat as [_ ->].
    destruct (linkedTheories integration); [done|].
    by rewrite (proj2 (Nat.ltb_ge _ _) Hrels).
Qed.

Lemma nextSteps_of_assessment_witness :
  exists rest,
    nextSteps (assessSaturation [Examples.thin_theme] 0)
      (theoreticalIntegration Examples.bare_theory)
      (categoryRelationships Examples.bare_theory) =
    "Continue data collection to achieve theoretical saturation" ::
    ("Further develop these categories: " +:+
       join ", " (unsaturatedCategories (assessSaturation [Examples.thin_theme] 0))) :: rest.
Proof.
  apply (proj1 (proj2 (nextSteps_of_assessment [Examples.thin_theme] 0
                         (theoreticalIntegration Examples.bare_theory)
                         (categoryRelationships Examples.bare_theory)))).
  vm_compute. discriminate.
Defined.

End ToolFurther.

Section MethodologyProperties.
Import JS MethodologyLoader.

(** ** [getRecommendedTools] and [isToolApplicable] *)

Lemma fold_set_add l s :
  NoDup s ->
  NoDup (fold_left set_add l s) /\
  (forall x, x ∈ fold_left set_add l s <-> x ∈ s \/ x ∈ l).
Proof.
  revert s. induction l as [|a l IH]; intros s Hs; simpl.
  - split; [done|]. intros x. rewrite elem_of_nil. tauto.
  - assert (Hs' : NoDup (set_add s a)).
    { unfold set_add. case_bool_decide as Hin; [done|].
      apply NoDup_app. split; [done|]. split; [|apply NoDup_singleton].
      intros x Hx Hx'. apply list_elem_of_singleton in Hx' as ->. done. }
    destruct (IH _ Hs') as [Hnodup Hmem]. split; [done|].
    intros x. rewrite Hmem, elem_of_cons. unfold set_add.
    case_bool_decide as Hin.
    + split; [tauto|]. intros [?|[->|?]]; auto.
    + rewrite elem_of_app, list_elem_of_singleton. tauto.
Qed.

Lemma fold_tool_lists ls s :
  NoDup s ->
  NoDup (fold_left (fun allTools toolList => fold_left set_add toolList allTools) ls s) /\
  (forall x,
     x ∈ fold_left (fun allTools toolList => fold_left set_add toolList allTools) ls s <->
     x ∈ s \/ exists l, l ∈ ls /\ x ∈ l).
Proof.
  revert s. induction ls as [|l ls IH]; intros s Hs; simpl.
  - split; [done|]. intros x. split; [by left|]. intros [?|(l & Hl & _)]; [done|].
    by apply elem_of_nil in Hl.
  - destruct (fold_set_add l s Hs) as [Hnodup Hmem].
    destruct (IH _ Hnodup) as [Hnodup' Hmem']. split; [done|].
    intros x. rewrite Hmem', Hmem. split.
    + intros [[?|?]|(l' & Hl' & ?)]; [by left|right..].
      * exists l. split; [by left|done].
      * exists l'. split; [by right|done].
    + intros [?|(l' & Hl' & Hx)]; [by left; left|].
      apply elem_of_cons in Hl' as [->|Hl']; [by left; right|].
      right. by exists l'.
Qed.

(** X20.  [getRecommendedTools] lists every tool of every tool list of
    the methodology, each one once; [isToolApplicable] holds exactly for
    those tools, whatever stage is passed. *)
Theorem recommended_tools methodology :
  NoDup (getRecommendedTools methodology) /\
  (forall tool,
     tool ∈ getRecommendedTools methodology <->
     exists entry, entry ∈ tools methodology /\ tool ∈ entry.2) /\
  (forall tool stage,
     isToolApplicable methodology tool stage = true <->
     exists entry, entry ∈ tools methodology /\ tool ∈ entry.2).
Proof.
  unfold isToolApplicable, getRecommendedTools.
  destruct (fold_tool_lists (snd <$> tools methodology) [] (NoDup_nil_2 (A:=string))) as [Hnodup Hmem].
  assert (Hiff : forall tool,
             tool ∈ fold_left (fun allTools toolList => fold_left set_add toolList allTools)
                      (snd <$> tools methodology) [] <->
             exists entry, entry ∈ tools methodology /\ tool ∈ entry.2).
  { intros tool. rewrite Hmem. split.
    - intros [Hnil|(l & Hl & Hx)]; [by apply elem_of_nil in Hnil|].
      apply list_elem_of_fmap in Hl as (entry & -> & Hentry). by exists entry.
    - intros (entry & Hentry & Hx). right. exists entry.2.
      split; [by apply list_elem_of_fmap_2|done]. }
  split; [done|]. split; [done|].
  intros tool stage. by rewrite bool_decide_eq_true.
Qed.

Lemma recommended_tools_witness :
  "buildGroundedTheory" ∈ getRecommendedTools (Examples.example_methodology 0).
Proof.
  apply (proj1 (proj2 (recommended_tools (Examples.example_methodology 0)))).
  exists ("theory", ["refineCodebook"; "buildGroundedTheory"]).
  split; [right; left|right; left].
Defined.

(** ** [getStageGuidance] *)

(** X21.  [getStageGuidance] returns nothing exactly when no stage has
    the requested name; otherwise it returns a stage of the methodology
    with that name, the first such in stage order. *)
Theorem getStageGuidance_first_match methodology stageName :
  (getStageGuidance methodology stageName = None <->
   forall s, s ∈ stages methodology -> name s <> stageName) /\
  (forall s, getStageGuidance methodology stageName = Some s ->
   exists i, stages methodology !! i = Some s /\ name s = stageName /\
             forall j s', j < i -> stages methodology !! j = Some s' -> name s' <> stageName).
Proof.
  unfold getStageGuidance. induction (stages methodology) as [|s0 l [IHnone IHsome]]; simpl.
  - split; [split; [by intros _ s Hs; apply elem_of_nil in Hs|done]|done].
  - case_bool_decide as Hname; split.
    + split; [done|]. intros Hall. exfalso. apply (Hall s0); [by left|done].
    + intros s [= <-]. exists 0. split; [done|]. split; [done|]. intros j s' Hj. lia.
    + rewrite IHnone. split.
      * intros Hall s Hs. apply elem_of_cons in Hs as [->|Hs]; [done|by apply Hall].
      * intros Hall s Hs. apply Hall. by right.
    + intros s Hs. destruct (IHsome s Hs) as (i & Hi & Hn & Hbefore).
      exists (S i). split; [done|]. split; [done|].
      intros [|j] s' Hj Hs'; [by injection Hs' as <-|].
      apply (Hbefore j); [lia|done].
Qed.

Lemma getStageGuidance_first_match_witness :
  exists i, stages (Examples.example_methodology 1) !! i
            = Some (Examples.numbered_stage "focused-coding" 2) /\
            name (Examples.numbered_stage "focused-coding" 2) = "focused-coding" /\
            forall j s', j < i -> stages (Examples.example_methodology 1) !! j = Some s' ->
                         name s' <> "focused-coding".
Proof.
  apply (proj2 (getStageGuidance_first_match (Examples.example_methodology 1)
                  "focused-coding")).
  reflexivity.
Defined.

(** ** [validateMethodologyStructure] *)

Lemma sort_insert_elem {A : Type} (cmp : A -> A -> Qc) a l x :
  x ∈ TheoryEngine.sort_insert cmp a l <-> x = a \/ x ∈ l.
Proof.
  induction l as [|y l IH]; simpl.
  - by rewrite list_elem_of_singleton, elem_of_nil; tauto.
  - destruct (Qc_leb (cmp a y) 0).
    + by rewrite elem_of_cons.
    + rewrite !elem_of_cons, IH. tauto.
Qed.

Lemma sort_elem {A : Type} (cmp : A -> A -> Qc) l x :
  x ∈ TheoryEngine.sort cmp l <-> x ∈ l.
Proof.
  induction l as [|a l IH]; [done|].
  change (TheoryEngine.sort cmp (a :: l))
    with (TheoryEngine.sort_insert cmp a (TheoryEngine.sort cmp l)).
  by rewrite sort_insert_elem, IH, elem_of_cons.
Qed.

Lemma sort_orders_elem orders o : o ∈ sort_orders orders <-> o ∈ orders.
Proof.
  unfold sort_orders. rewrite elem_of_app, list_elem_of_fmap. split.
  - intros [(z & -> & Hz)|Hnone].
    + apply sort_elem, list_elem_of_omap in Hz as (o' & Ho' & Heq). simpl in Heq. by subst.
    + by apply list_elem_of_In, filter_In in Hnone as [?%list_elem_of_In _].
  - intros Ho. destruct o as [z|].
    + left. exists z. split; [done|]. apply sort_elem, list_elem_of_omap. by exists (Some z).
    + right. apply list_elem_of_In, filter_In. split; [by apply list_elem_of_In|done].
Qed.

(** X22.  Unless one of its stages has order 0, a methodology with at
    least one stage is reported invalid with the message "Stage orders
    should be sequential starting from 1 (or 0 for ongoing stages)": in
    particular stages numbered 1, 2, 3, ... are rejected. *)
Theorem stages_without_order_zero_rejected methodology :
  stages methodology <> [] ->
  (forall s, s ∈ stages methodology -> order s <> Some 0%Z) ->
  valid (validateMethodologyStructure methodology) = false /\
  ("Stage orders should be sequential starting from 1 (or 0 for ongoing stages)"
     ∈ errors (validateMethodologyStructure methodology)).
Proof.
  intros Hne Hnozero.
  assert (Hseq : orders_sequential (sort_orders (order <$> stages methodology)) = false).
  { destruct (sort_orders (order <$> stages methodology)) as [|o0 rest] eqn:Hsorted.
    - destruct (stages methodology) as [|s0 l]; [done|].
      assert (Hin : order s0 ∈ sort_orders (order <$> s0 :: l))
        by (apply sort_orders_elem; left).
      rewrite Hsorted in Hin. by apply elem_of_nil in Hin.
    - assert (Ho0 : o0 ∈ order <$> stages methodology).
      { apply sort_orders_elem. rewrite Hsorted. by left. }
      apply list_elem_of_fmap in Ho0 as (s & -> & Hs).
      unfold orders_sequential. rewrite imap_cons. cbn [forallb fst snd].
      change (Z.of_nat 0) with 0%Z.
      by rewrite (bool_decide_eq_false_2 _ (Hnozero s Hs)). }
  assert (Hin : "Stage orders should be sequential starting from 1 (or 0 for ongoing stages)"
                ∈ errors (validateMethodologyStructure methodology)).
  { unfold validateMethodologyStructure. cbn [errors]. rewrite Hseq. cbn [negb].
    rewrite !elem_of_app. do 6 right. by left. }
  split; [|exact Hin].
  unfold validateMethodologyStructure in *. cbn [valid errors] in *.
  match goal with
  | H : _ ∈ ?e |- _ => destruct e; [by apply elem_of_nil in H|done]
  end.
Qed.

Lemma stages_without_order_zero_rejected_witness :
  valid (validateMethodologyStructure (Examples.example_methodology 1)) = false.
Proof.
  apply (stages_without_order_zero_rejected (Examples.example_methodology 1)).
  - discriminate.
  - intros s Hs. repeat (apply elem_of_cons in Hs as [->|Hs]; [discriminate|]).
    by apply elem_of_nil in Hs.
Defined.

Lemma cmp_orders_nonpos (a b : Z) :
  Qc_leb (Q2Qc (inject_Z a) - Q2Qc (inject_Z b)) 0 = true <-> (a <= b)%Z.
Proof.
  unfold Qc_leb. rewrite bool_decide_eq_true.
  rewrite (Qcplus_le_mono_r _ _ (Q2Qc (inject_Z b))).
  unfold Qcminus. rewrite <- Qcplus_assoc, (Qcplus_comm (- _)), Qcplus_opp_r.
  rewrite Qcplus_0_r, Qcplus_0_l. apply Q2Qc_inject_Z_le.
Qed.

Lemma sort_ascending (l : list Z) :
  StronglySorted Z.le l ->
  TheoryEngine.sort (fun a b => (Q2Qc (inject_Z a) - Q2Qc (inject_Z b))%Qc) l = l.
Proof.
  induction 1 as [|a l Hsorted IH Hall]; [done|].
  change (TheoryEngine.sort ?c (a :: l))
    with (TheoryEngine.sort_insert c a (TheoryEngine.sort c l)).
  rewrite IH. destruct l as [|y l]; [done|]. simpl.
  apply Forall_cons in Hall as [Hay _].
  by rewrite (proj2 (cmp_orders_nonpos a y) Hay).
Qed.

Lemma seq_strongly_sorted (start n : nat) :
  StronglySorted Z.le (Z.of_nat <$> seq start n).
Proof.
  revert start. induction n as [|n IH]; intros start; simpl; constructor; [apply IH|].
  apply Forall_fmap, Forall_forall. intros x Hx. apply elem_of_seq in Hx. simpl. lia.
Qed.

Lemma numbered_orders (stages : list MethodologyStage) :
  (forall i s, stages !! i = Some s -> order s = Some (Z.of_nat i)) ->
  order <$> stages = Some <$> (Z.of_nat <$> seq 0 (length stages)).
Proof.
  intros Hnum. apply list_eq. intros i. rewrite !list_lookup_fmap.
  destruct (stages !! i) as [s|] eqn:Hs; simpl.
  - rewrite (lookup_seq_lt 0 (length stages) i) by (by eapply lookup_lt_Some).
    simpl. by rewrite (Hnum i s Hs).
  - rewrite lookup_seq_ge; [done|]. by apply lookup_ge_None.
Qed.

Lemma omap_Some_fmap {A : Type} (l : list A) : omap (fun o => o) (Some <$> l) = l.
Proof. induction l as [|a l IH]; [done|]. simpl. f_equal. exact IH. Qed.

Lemma filter_None_fmap {A : Type} (l : list A) :
  List.filter (fun o : option A => bool_decide (o = None)) (Some <$> l) = [].
Proof. induction l as [|a l IH]; [done|]. simpl. exact IH. Qed.

(** X23.  A methodology whose required fields are present and whose
    stages are numbered 0, 1, 2, ... in stage order passes validation
    with no error. *)
Theorem stages_numbered_from_zero_accepted methodology :
  missing (id methodology) = false ->
  missing (methodology_name methodology) = false ->
  missing (version methodology) = false ->
  missing (category methodology) = false ->
  stages methodology <> [] ->
  (forall i s, stages methodology !! i = Some s ->
     missing (name s) = false /\ missing (description s) = false /\
     missing (promptTemplate s) = false /\ order s = Some (Z.of_nat i)) ->
  validateMethodologyStructure methodology = {| valid := true; errors := [] |}.
Proof.
  intros Hid Hname Hversion Hcategory Hne Hstages.
  assert (Hsorted : sort_orders (order <$> stages methodology) = order <$> stages methodology).
  { rewrite (numbered_orders (stages methodology)) by (intros i s Hs; by apply Hstages).
    unfold sort_orders. rewrite omap_Some_fmap, filter_None_fmap, app_nil_r.
    by rewrite sort_ascending by apply seq_strongly_sorted. }
  assert (Hseq : orders_sequential (order <$> stages methodology) = true).
  { unfold orders_sequential. apply forallb_forall. intros [i o] Hio.
    apply list_elem_of_In, elem_of_lookup_imap in Hio as (i' & o' & Heq & Hlook).
    injection Heq as -> ->. rewrite list_lookup_fmap in Hlook.
    destruct (stages methodology !! i') as [s|] eqn:Hs; [|done].
    injection Hlook as <-. destruct (Hstages i' s Hs) as (_ & _ & _ & ->).
    simpl. by rewrite bool_decide_eq_true_2. }
  assert (Hnone : mjoin (imap stage_errors (stages methodology)) = []).
  { assert (Hall : Forall (fun es => es = []) (imap stage_errors (stages methodology))).
    { apply Forall_forall. intros es Hes.
      apply elem_of_lookup_imap in Hes as (i & s & -> & Hs).
      destruct (Hstages i s Hs) as (Hn & Hd & Hp & Ho).
      unfold stage_errors. rewrite Hn, Hd, Hp, Ho. by rewrite bool_decide_eq_false_2. }
    induction Hall as [|es ess -> _ IH]; [done|exact IH]. }
  unfold validateMethodologyStructure.
  rewrite Hid, Hname, Hversion, Hcategory, Hnone, Hsorted, Hseq.
  destruct (stages methodology); [done|]. reflexivity.
Qed.

Lemma stages_numbered_from_zero_accepted_witness :
  validateMethodologyStructure (Examples.example_methodology 0)
  = {| valid := true; errors := [] |}.
Proof.
  apply (stages_numbered_from_zero_accepted (Examples.example_methodology 0));
    try reflexivity.
  - discriminate.
  - intros [|[|i]] s Hs; [injection Hs as <-; by repeat split..|done].
Defined.

End MethodologyProperties.

Section HierarchyFurther.
Import Types RefineCodebook.

(** ** [calculateHierarchyDepth]: the value returned *)

Lemma getDepth_ge rel fuel x d r : getDepth fuel rel x d = Normal r -> d <= r.
Proof.
  revert x d r. induction fuel as [|fuel IH]; intros x d r Hr; [done|].
  rewrite getDepth_S in Hr. destruct (Invariants.traversable rel x); [|done].
  destruct (listed_children rel x) as [|c cs] eqn:Hcs; simpl in Hr; [by injection Hr as <-|].
  destruct (getDepth fuel rel c (d + 1)) as [rc| |] eqn:Hc; [|done|done]. simpl in Hr.
  destruct (array_map _ cs) as [rs| |]; [|done|done]. injection Hr as <-.
  apply IH in Hc. simpl. lia.
Qed.

(** X24.  When the depth calculation returns, the depth is 0 exactly
    when there is no root; with at least one root it is at least 1, and
    exactly 1 when no root has children. *)
Theorem hierarchy_depth_value fuel h m :
  calculateHierarchyDepth fuel h = Normal m ->
  (m = 0 <-> rootCodes h = []) /\
  (rootCodes h <> [] ->
   (forall r, r ∈ rootCodes h -> listed_children (relationships h) r = []) -> m = 1).
Proof.
  rewrite calculateHierarchyDepth_array_map. intros Hm.
  destruct (array_map _ _) as [ds| |] eqn:Hds; [|done|done]. injection Hm as <-.
  apply array_map_Normal in Hds. split; [split|].
  - intros Hzero. destruct (rootCodes h) as [|r rs]; [done|].
    apply Forall2_cons_inv_l in Hds as (d & ds' & Hd & _ & ->).
    apply getDepth_ge in Hd. simpl in Hzero. lia.
  - intros Hnil. rewrite Hnil in Hds. by apply Forall2_nil_inv_l in Hds as ->.
  - intros Hne Hflat.
    assert (Hall : Forall (fun d => d = 1) ds).
    { apply Forall_forall. intros d Hd.
      apply list_elem_of_lookup in Hd as [i Hi].
      destruct (Forall2_lookup_r _ _ _ _ _ Hds Hi) as (r & Hr & Hdepth).
      assert (Hroot : r ∈ rootCodes h) by (apply list_elem_of_lookup; by exists i).
      destruct fuel as [|fuel]; [done|]. rewrite getDepth_S, (Hflat r Hroot) in Hdepth.
      destruct (Invariants.traversable _ _); [|done].
      by injection Hdepth as <-. }
    destruct (rootCodes h) as [|r rs]; [done|].
    apply Forall2_cons_inv_l in Hds as (d & ds' & _ & _ & ->).
    apply Forall_cons in Hall as [-> Hall]. simpl.
    assert (max_list ds' <= 1); [|lia].
    clear -Hall. induction Hall as [|d ds' -> _ IH]; simpl; lia.
Qed.

Lemma hierarchy_depth_value_witness :
  (1 = 0 <-> rootCodes Examples.flat_hierarchy = []) /\
  (rootCodes Examples.flat_hierarchy <> [] ->
   (forall r, r ∈ rootCodes Examples.flat_hierarchy ->
      listed_children (relationships Examples.flat_hierarchy) r = []) ->
   1 = 1).
Proof.
  apply (hierarchy_depth_value 2 Examples.flat_hierarchy 1).
  vm_compute. reflexivity.
Defined.

End HierarchyFurther.
